(** * The token lifecycle of server.js (HubSpot CRM connector)

    A shallow embedding of the parts of [src/server.js] that hold, persist,
    refresh and use the OAuth token pair, and the properties of the
    specification that concern them.

    Conventions of the model.
    - JavaScript values are [jsval].  Numbers are the integers and [NaN]:
      every number the server computes with is a millisecond timestamp or a
      lifetime in seconds.  Arithmetic is exact, as JavaScript's is on
      integers up to 2^53 - 1 ([safe]); the statements that give a computed
      value are made for that range and for operands that are numbers.
      Strings are sequences of 8-bit characters.
      Objects are association lists in insertion order, with distinct keys;
      keys that look like array indices are not reordered.
    - The process state (the global [hubspotTokens], the token file, the
      console, the requests sent, the replies the upstream will give and the
      clock) is the record [World]; the code runs in a state-and-exception
      monad [M] over it.
    - The server is followed one request at a time (no interleaving of
      handlers). *)

From Stdlib Require Import ZArith List String Ascii Bool Lia.
From Stdlib Require Import Decimal DecimalFacts DecimalPos DecimalZ DecimalString.
Import ListNotations.

Local Open Scope string_scope.
Local Open Scope Z_scope.

(** ** JavaScript values *)

Inductive number : Type :=
| Num (z : Z)
| NaN.

#[warnings="-register-all"]
Inductive jsval : Type :=
| JUndefined
| JNull
| JBool (b : bool)
| JNum (n : number)
| JStr (s : string)
| JArr (elems : list jsval)
| JObj (fields : list (string * jsval)).

(** ToBoolean. *)
Definition truthy (v : jsval) : bool :=
  match v with
  | JUndefined | JNull => false
  | JBool b => b
  | JNum (Num z) => negb (z =? 0)
  | JNum NaN => false
  | JStr s => negb (s =? EmptyString)%string
  | JArr _ | JObj _ => true
  end.

Definition nullish (v : jsval) : bool :=
  match v with
  | JUndefined | JNull => true
  | _ => false
  end.

(** [a || b] and [a && b] on values (both operands already evaluated). *)
Definition js_or (a b : jsval) : jsval := if truthy a then a else b.
Definition js_and (a b : jsval) : jsval := if truthy a then b else a.

(** Property lookup in an object literal's field list. *)
Fixpoint lookup (k : string) (fs : list (string * jsval)) : option jsval :=
  match fs with
  | [] => None
  | (k', v) :: fs' => if (k =? k')%string then Some v else lookup k fs'
  end.

(** [o[k] = v] on a field list: an existing key keeps its place. *)
Fixpoint obj_set (k : string) (v : jsval) (fs : list (string * jsval))
  : list (string * jsval) :=
  match fs with
  | [] => [(k, v)]
  | (k', v') :: fs' =>
      if (k =? k')%string then (k, v) :: fs' else (k', v') :: obj_set k v fs'
  end.

(** An object literal [{...base, k1: v1, ..., kn: vn}] adds its members from
    left to right. *)
Definition obj_extend (base members : list (string * jsval))
  : list (string * jsval) :=
  fold_left (fun acc kv => obj_set (fst kv) (snd kv) acc) members base.

(** The own enumerable properties that [{...v}] copies.  Only objects carry
    the properties this server reads. *)
Definition spread (v : jsval) : list (string * jsval) :=
  match v with
  | JObj fs => fs
  | _ => []
  end.

(** [v.k] for a [v] that is neither null nor undefined: none of the names
    the server reads is a built-in property of a string, number, boolean or
    array, except [length]. *)
Definition field (v : jsval) (k : string) : jsval :=
  match v with
  | JObj fs => match lookup k fs with Some x => x | None => JUndefined end
  | _ => JUndefined
  end.

Definition js_length (v : jsval) : jsval :=
  match v with
  | JArr l => JNum (Num (Z.of_nat (List.length l)))
  | JStr s => JNum (Num (Z.of_nat (String.length s)))
  | _ => field v "length"
  end.

(** *** Numbers and coercions *)

Definition string_of_Z (z : Z) : string := NilZero.string_of_int (Z.to_int z).

Fixpoint join (sep : string) (l : list string) : string :=
  match l with
  | [] => EmptyString
  | [s] => s
  | s :: l' => s ++ sep ++ join sep l'
  end.

(** ToString. *)
Fixpoint ToString (v : jsval) : string :=
  match v with
  | JUndefined => "undefined"
  | JNull => "null"
  | JBool true => "true"
  | JBool false => "false"
  | JNum (Num z) => string_of_Z z
  | JNum NaN => "NaN"
  | JStr s => s
  | JObj _ => "[object Object]"
  | JArr l =>
      join "," (map (fun e => if nullish e then EmptyString else ToString e) l)
  end.

Definition is_space (c : ascii) : bool :=
  match c with
  | " "%char | "009"%char | "010"%char | "011"%char | "012"%char
  | "013"%char | "160"%char => true
  | _ => false
  end.

Fixpoint trim_left (s : string) : string :=
  match s with
  | String c s' => if is_space c then trim_left s' else s
  | EmptyString => s
  end.

Fixpoint rev_string (s acc : string) : string :=
  match s with
  | EmptyString => acc
  | String c s' => rev_string s' (String c acc)
  end.

Definition trim (s : string) : string :=
  rev_string (trim_left (rev_string (trim_left s) EmptyString)) EmptyString.

(** StringToNumber on the numerals of the model: an optionally signed run of
    decimal digits, surrounded by white space; the empty string is 0 and any
    other text is [NaN].  Texts that JavaScript reads as a number with a
    fraction, an exponent, a radix prefix or as Infinity are outside the
    model: no statement below gives the number read from a text. *)
Definition StringToNumber (s : string) : number :=
  match trim s with
  | EmptyString => Num 0
  | String "-"%char t =>
      match NilEmpty.uint_of_string t with
      | Some Nil | None => NaN
      | Some d => Num (- Z.of_uint d)
      end
  | String "+"%char t =>
      match NilEmpty.uint_of_string t with
      | Some Nil | None => NaN
      | Some d => Num (Z.of_uint d)
      end
  | t =>
      match NilEmpty.uint_of_string t with
      | Some d => Num (Z.of_uint d)
      | None => NaN
      end
  end.

(** ToNumber. *)
Definition ToNumber (v : jsval) : number :=
  match v with
  | JUndefined => NaN
  | JNull => Num 0
  | JBool true => Num 1
  | JBool false => Num 0
  | JNum n => n
  | JStr s => StringToNumber s
  | JArr _ => StringToNumber (ToString v)
  | JObj _ => NaN
  end.

(** Sum, difference and product of integers, exact (see [safe] for the range
    in which JavaScript's are). *)
Definition num_add (a b : number) : number :=
  match a, b with
  | Num x, Num y => Num (x + y)
  | _, _ => NaN
  end.

Definition num_sub (a b : number) : number :=
  match a, b with
  | Num x, Num y => Num (x - y)
  | _, _ => NaN
  end.

Definition num_mul (a b : number) : number :=
  match a, b with
  | Num x, Num y => Num (x * y)
  | _, _ => NaN
  end.

(** [a >= b] on numbers: false as soon as one side is [NaN]. *)
Definition num_ge (a b : number) : bool :=
  match a, b with
  | Num x, Num y => x >=? y
  | _, _ => false
  end.

(** ** JSON text

    [JSON.stringify(value, null, 2)] and [JSON.parse] on the values of the
    model.  The text of a file is a string; writing a string to a file as
    UTF-8 and reading it back gives the same string. *)

Definition dquote : ascii := "034"%char.
Definition bslash : ascii := "092"%char.
Definition nl : string := String "010"%char EmptyString.
Definition gap : string := "  ".

Definition hex_digit (n : N) : ascii :=
  if (n <? 10)%N then ascii_of_N (48 + n) else ascii_of_N (87 + n).

(** One character of QuoteJSONString. *)
Definition escape_char (c : ascii) : string :=
  match c with
  | "008"%char => String bslash "b"
  | "009"%char => String bslash "t"
  | "010"%char => String bslash "n"
  | "012"%char => String bslash "f"
  | "013"%char => String bslash "r"
  | "034"%char => String bslash (String dquote EmptyString)
  | "092"%char => String bslash (String bslash EmptyString)
  | _ =>
      if (N_of_ascii c <? 32)%N
      then String bslash
             (String "u" (String "0" (String "0"
               (String (hex_digit (N_of_ascii c / 16))
                 (String (hex_digit (N_of_ascii c mod 16)) EmptyString)))))
      else String c EmptyString
  end.

Fixpoint escape (s : string) : string :=
  match s with
  | EmptyString => EmptyString
  | String c s' => escape_char c ++ escape s'
  end.

Definition quote (s : string) : string :=
  String dquote (escape s ++ String dquote EmptyString).

(** The members of an object that have a JSON form, as [key: value]. *)
Definition object_parts (one : jsval -> option string)
  : list (string * jsval) -> list string :=
  fix go (fs : list (string * jsval)) : list string :=
    match fs with
    | [] => []
    | (k, x) :: fs' =>
        match one x with
        | Some t => (quote k ++ ": " ++ t) :: go fs'
        | None => go fs'
        end
    end.

(** SerializeJSONProperty with the gap of two spaces; [None] is the
    [undefined] that a value without a JSON form serialises to. *)
Fixpoint ser (indent : string) (v : jsval) : option string :=
  match v with
  | JUndefined => None
  | JNull => Some "null"
  | JBool true => Some "true"
  | JBool false => Some "false"
  | JNum (Num z) => Some (string_of_Z z)
  | JNum NaN => Some "null"
  | JStr s => Some (quote s)
  | JArr l =>
      let inner := indent ++ gap in
      let parts :=
        map (fun e => match ser inner e with Some t => t | None => "null" end)
            l in
      Some match parts with
           | [] => "[]"
           | _ => "[" ++ nl ++ inner ++ join ("," ++ nl ++ inner) parts
                  ++ nl ++ indent ++ "]"
           end
  | JObj fs =>
      let inner := indent ++ gap in
      let parts := object_parts (ser inner) fs in
      Some match parts with
           | [] => "{}"
           | _ => "{" ++ nl ++ inner ++ join ("," ++ nl ++ inner) parts
                  ++ nl ++ indent ++ "}"
           end
  end.

Definition JSON_stringify (v : jsval) : option string := ser EmptyString v.

(** *** JSON.parse: a lexer that reads one character at a time, and a
    parser that reads one token at a time.  [None] is the SyntaxError that
    [JSON.parse] throws.  Numerals with a fraction or an exponent, and
    escapes of characters beyond the 8-bit range, are outside the model and
    are refused as well: [is_json], further down, tells a text that is not
    JSON from a JSON text outside the model. *)

Inductive token : Type :=
| TLBrace | TRBrace | TLBrack | TRBrack | TColon | TComma
| TString (s : string)
| TNumber (z : Z)
| TTrue | TFalse | TNull.

Inductive lexst : Type :=
| LIdle
| LStr (acc : string)                       (* inside a string, reversed *)
| LEsc (acc : string)                       (* after a backslash *)
| LHex (acc : string) (todo : nat) (code : N) (* inside \uXXXX *)
| LNum (neg : bool) (acc : uint)            (* inside a numeral, reversed *)
| LWord (rest : string) (t : token).        (* inside true, false, null *)

Definition hex_value (c : ascii) : option N :=
  let n := N_of_ascii c in
  if ((48 <=? n) && (n <=? 57))%N then Some (n - 48)%N
  else if ((97 <=? n) && (n <=? 102))%N then Some (n - 87)%N
  else if ((65 <=? n) && (n <=? 70))%N then Some (n - 55)%N
  else None.

Definition step_idle (c : ascii) : option (lexst * list token) :=
  match c with
  | " "%char | "009"%char | "010"%char | "013"%char => Some (LIdle, [])
  | "{"%char => Some (LIdle, [TLBrace])
  | "}"%char => Some (LIdle, [TRBrace])
  | "["%char => Some (LIdle, [TLBrack])
  | "]"%char => Some (LIdle, [TRBrack])
  | ":"%char => Some (LIdle, [TColon])
  | ","%char => Some (LIdle, [TComma])
  | "034"%char => Some (LStr EmptyString, [])
  | "-"%char => Some (LNum true Nil, [])
  | "t"%char => Some (LWord "rue" TTrue, [])
  | "f"%char => Some (LWord "alse" TFalse, [])
  | "n"%char => Some (LWord "ull" TNull, [])
  | _ =>
      match uint_of_char c (Some Nil) with
      | Some d => Some (LNum false d, [])
      | None => None
      end
  end.

(** The numeral read so far is complete: it has a digit and no superfluous
    leading zero. *)
Definition finish_number (neg : bool) (acc : uint) : option token :=
  let d := rev acc in
  match d with
  | Nil => None
  | _ =>
      if uint_beq (unorm d) d
      then Some (TNumber (if neg then - Z.of_uint d else Z.of_uint d))
      else None
  end.

Definition step (st : lexst) (c : ascii) : option (lexst * list token) :=
  match st with
  | LIdle => step_idle c
  | LStr acc =>
      if (c =? dquote)%char then Some (LIdle, [TString (rev_string acc EmptyString)])
      else if (c =? bslash)%char then Some (LEsc acc, [])
      else if (N_of_ascii c <? 32)%N then None
      else Some (LStr (String c acc), [])
  | LEsc acc =>
      match c with
      | "034"%char | "092"%char | "/"%char => Some (LStr (String c acc), [])
      | "b"%char => Some (LStr (String "008"%char acc), [])
      | "f"%char => Some (LStr (String "012"%char acc), [])
      | "n"%char => Some (LStr (String "010"%char acc), [])
      | "r"%char => Some (LStr (String "013"%char acc), [])
      | "t"%char => Some (LStr (String "009"%char acc), [])
      | "u"%char => Some (LHex acc 4 0%N, [])
      | _ => None
      end
  | LHex acc todo code =>
      match hex_value c with
      | None => None
      | Some h =>
          let code' := (code * 16 + h)%N in
          match todo with
          | 1%nat =>
              if (code' <? 256)%N
              then Some (LStr (String (ascii_of_N code') acc), [])
              else None
          | _ => Some (LHex acc (Nat.pred todo) code', [])
          end
      end
  | LNum neg acc =>
      match uint_of_char c (Some acc) with
      | Some acc' => Some (LNum neg acc', [])
      | None =>
          match finish_number neg acc, step_idle c with
          | Some t, Some (st', ts) => Some (st', t :: ts)
          | _, _ => None
          end
      end
  | LWord rest t =>
      match rest with
      | String r rest' =>
          if (c =? r)%char
          then match rest' with
               | EmptyString => Some (LIdle, [t])
               | _ => Some (LWord rest' t, [])
               end
          else None
      | EmptyString => None
      end
  end.

Definition finish (st : lexst) : option (list token) :=
  match st with
  | LIdle => Some []
  | LNum neg acc =>
      match finish_number neg acc with
      | Some t => Some [t]
      | None => None
      end
  | _ => None
  end.

(** [out] holds the tokens read so far, newest first. *)
Fixpoint lex (st : lexst) (out : list token) (s : string)
  : option (list token) :=
  match s with
  | EmptyString =>
      match finish st with
      | Some ts => Some (List.rev (List.rev_append ts out))
      | None => None
      end
  | String c s' =>
      match step st c with
      | Some (st', ts) => lex st' (List.rev_append ts out) s'
      | None => None
      end
  end.

Inductive frame : Type :=
| FArr (done : list jsval)                          (* reversed *)
| FObj (done : list (string * jsval)) (key : string).

Inductive pst : Type :=
| PValue
| PArrOpen
| PObjOpen
| PKey (fs : list (string * jsval))
| PColon (fs : list (string * jsval)) (k : string)
| PAfter (v : jsval).

Definition pvalue (stk : list frame) (t : token)
  : option (pst * list frame) :=
  match t with
  | TString s => Some (PAfter (JStr s), stk)
  | TNumber z => Some (PAfter (JNum (Num z)), stk)
  | TTrue => Some (PAfter (JBool true), stk)
  | TFalse => Some (PAfter (JBool false), stk)
  | TNull => Some (PAfter JNull, stk)
  | TLBrack => Some (PArrOpen, FArr [] :: stk)
  | TLBrace => Some (PObjOpen, stk)
  | _ => None
  end.

Definition pstep (st : pst) (stk : list frame) (t : token)
  : option (pst * list frame) :=
  match st with
  | PValue => pvalue stk t
  | PArrOpen =>
      match t, stk with
      | TRBrack, FArr _ :: stk' => Some (PAfter (JArr []), stk')
      | _, _ => pvalue stk t
      end
  | PObjOpen =>
      match t with
      | TRBrace => Some (PAfter (JObj []), stk)
      | TString k => Some (PColon [] k, stk)
      | _ => None
      end
  | PKey fs =>
      match t with
      | TString k => Some (PColon fs k, stk)
      | _ => None
      end
  | PColon fs k =>
      match t with
      | TColon => Some (PValue, FObj fs k :: stk)
      | _ => None
      end
  | PAfter v =>
      match stk, t with
      | FArr es :: stk', TComma => Some (PValue, FArr (v :: es) :: stk')
      | FArr es :: stk', TRBrack =>
          Some (PAfter (JArr (List.rev (v :: es))), stk')
      | FObj fs k :: stk', TComma => Some (PKey (obj_set k v fs), stk')
      | FObj fs k :: stk', TRBrace =>
          Some (PAfter (JObj (obj_set k v fs)), stk')
      | _, _ => None
      end
  end.

Fixpoint parse_tokens (st : pst) (stk : list frame) (ts : list token)
  : option jsval :=
  match ts with
  | [] =>
      match st, stk with
      | PAfter v, [] => Some v
      | _, _ => None
      end
  | t :: ts' =>
      match pstep st stk t with
      | Some (st', stk') => parse_tokens st' stk' ts'
      | None => None
      end
  end.

Definition JSON_parse (s : string) : option jsval :=
  match lex LIdle [] s with
  | Some ts => parse_tokens PValue [] ts
  | None => None
  end.

(** ** The process and its environment *)

(** What the JavaScript engine and Node report on their own errors: the
    texts are the engine's, the server only logs or forwards them. *)
Inductive engine_error : Type :=
| BadJSON (text : string)              (* JSON.parse on an ill-formed text *)
| NullishRead (v : jsval) (k : string) (* v.k with v null or undefined *)
| BadFileData.                         (* writeFileSync of undefined *)

Record Config : Type := mkConfig {
  isProduction : bool;             (* process.env.NODE_ENV === 'production' *)
  HUBSPOT_CLIENT_ID : jsval;
  HUBSPOT_CLIENT_SECRET : jsval;
  engine_message : engine_error -> string
}.

(** A thrown error: [error.message] and [error.response], which only the
    HTTP client sets, to an object with [status] and [data]. *)
Record jserror : Type := mkError {
  message : string;
  response : option jsval
}.

Inductive file : Type :=
| Absent
| Unreadable (why : string)   (* exists, reading it throws *)
| Content (text : string).

Inductive level : Type := Info | Error.

Record request : Type := mkRequest {
  method : string;
  url : string;
  body : jsval;
  params : jsval;
  headers : jsval
}.

(** What the upstream does with a request: it answers with a status and a
    body, or the request fails without an answer. *)
Inductive reply : Type :=
| Reply (status : Z) (data : jsval)
| NoReply (why : string).

Record World : Type := mkWorld {
  hubspotTokens : jsval;            (* the global token slot *)
  token_file : file;                (* TOKEN_PATH on disk *)
  write_error : option string;      (* writeFileSync throws this, if any *)
  console : list (level * list jsval);  (* oldest first *)
  sent : list request;              (* requests issued, oldest first *)
  upstream : list (Z * reply);      (* time taken and reply, per request *)
  now : Z;                          (* Date.now() *)
  refresh_calls : nat               (* ghost: entries into refreshToken *)
}.

Inductive outcome (A : Type) : Type :=
| Ok (a : A)
| Throw (e : jserror).
Arguments Ok {A} a.
Arguments Throw {A} e.

Definition M (A : Type) : Type := World -> outcome A * World.

Definition ret {A} (a : A) : M A := fun w => (Ok a, w).

Definition bind {A B} (m : M A) (k : A -> M B) : M B :=
  fun w =>
    match m w with
    | (Ok a, w') => k a w'
    | (Throw e, w') => (Throw e, w')
    end.

Definition throw {A} (e : jserror) : M A := fun w => (Throw e, w).

(** [try { body } catch (error) { handler }]. *)
Definition try_catch {A} (body : M A) (handler : jserror -> M A) : M A :=
  fun w =>
    match body w with
    | (Ok a, w') => (Ok a, w')
    | (Throw e, w') => handler e w'
    end.

Declare Scope js_scope.
Delimit Scope js_scope with js.
Notation "x <- m ;; k" := (bind m (fun x => k))
  (at level 61, m at next level, right associativity) : js_scope.
Notation "m ;;; k" := (bind m (fun _ => k))
  (at level 61, right associativity) : js_scope.
Local Open Scope js_scope.

Definition read_tokens : M jsval := fun w => (Ok (hubspotTokens w), w).

Definition write_tokens (v : jsval) : M unit :=
  fun w =>
    (Ok tt,
     mkWorld v (token_file w) (write_error w) (console w) (sent w)
       (upstream w) (now w) (refresh_calls w)).

Definition Date_now : M number := fun w => (Ok (Num (now w)), w).

Definition console_out (l : level) (args : list jsval) : M unit :=
  fun w =>
    (Ok tt,
     mkWorld (hubspotTokens w) (token_file w) (write_error w)
       (console w ++ [(l, args)]) (sent w) (upstream w) (now w)
       (refresh_calls w)).

Definition console_log := console_out Info.
Definition console_error := console_out Error.

Definition enter_refresh : M unit :=
  fun w =>
    (Ok tt,
     mkWorld (hubspotTokens w) (token_file w) (write_error w) (console w)
       (sent w) (upstream w) (now w) (S (refresh_calls w))).

(** [fs.existsSync(TOKEN_PATH)]. *)
Definition fs_existsSync : M bool :=
  fun w =>
    (Ok match token_file w with Absent => false | _ => true end, w).

(** [fs.readFileSync(TOKEN_PATH, 'utf8')]. *)
Definition fs_readFileSync : M string :=
  fun w =>
    match token_file w with
    | Content text => (Ok text, w)
    | Unreadable why => (Throw (mkError why None), w)
    | Absent => (Throw (mkError "ENOENT: no such file or directory" None), w)
    end.

Section Server.

Variable cfg : Config.

(** [fs.writeFileSync(TOKEN_PATH, data)]; [None] is [undefined] data. *)
Definition fs_writeFileSync (data : option string) : M unit :=
  fun w =>
    match data, write_error w with
    | None, _ => (Throw (mkError (engine_message cfg BadFileData) None), w)
    | Some _, Some why => (Throw (mkError why None), w)
    | Some text, None =>
        (Ok tt,
         mkWorld (hubspotTokens w) (Content text) (write_error w)
           (console w) (sent w) (upstream w) (now w) (refresh_calls w))
    end.

(** [JSON.parse(text)]. *)
Definition parse_json (text : string) : M jsval :=
  match JSON_parse text with
  | Some v => ret v
  | None => throw (mkError (engine_message cfg (BadJSON text)) None)
  end.

(** [v.k] where [v] may be null or undefined: a TypeError then. *)
Definition member (v : jsval) (k : string) : M jsval :=
  if nullish v
  then throw (mkError (engine_message cfg (NullishRead v k)) None)
  else ret (field v k).

(** [axios.get] and [axios.post]: the request goes out, time passes, and
    the promise resolves with the response on a 2xx status and rejects
    otherwise. *)
Definition axios (r : request) : M jsval :=
  fun w =>
    match upstream w with
    | [] =>
        (Throw (mkError "Network Error" None),
         mkWorld (hubspotTokens w) (token_file w) (write_error w)
           (console w) (sent w ++ [r]) [] (now w) (refresh_calls w))
    | (dt, a) :: rest =>
        let w' :=
          mkWorld (hubspotTokens w) (token_file w) (write_error w)
            (console w) (sent w ++ [r]) rest (now w + dt)
            (refresh_calls w) in
        match a with
        | Reply status data =>
            let resp := JObj [("data", data); ("status", JNum (Num status))] in
            if (200 <=? status) && (status <? 300)
            then (Ok resp, w')
            else (Throw (mkError ("Request failed with status code "
                                  ++ string_of_Z status) (Some resp)), w')
        | NoReply why => (Throw (mkError why None), w')
        end
    end.

Definition token_endpoint : string := "https://api.hubapi.com/oauth/v1/token".

(** [error.response?.data] *)
Definition response_data (error : jserror) : jsval :=
  match response error with
  | Some r => field r "data"
  | None => JUndefined
  end.

(** *** Startup: load tokens from file if available (lines 25-36) *)
Definition load_tokens : M unit :=
  try_catch
    (present <- fs_existsSync ;;
     if negb (isProduction cfg) && present then
       tokenData <- fs_readFileSync ;;
       v <- parse_json tokenData ;;
       write_tokens v ;;;
       console_log [JStr "Loaded tokens from file"]
     else
       console_log [JStr "No saved tokens found or running in production"])
    (fun error =>
       console_error [JStr "Error loading tokens from file:";
                      JStr (message error)]).

(** *** saveTokens (lines 39-52) *)
Definition saveTokens (tokens : jsval) : M unit :=
  try_catch
    (if isProduction cfg then
       console_log [JStr "Running in production, skipping token file save"]
     else
       fs_writeFileSync (JSON_stringify tokens) ;;;
       console_log [JStr "Tokens saved to file"])
    (fun error =>
       console_error [JStr "Error saving tokens to file:";
                      JStr (message error)]).

(** *** refreshToken (lines 55-96) *)
Definition refreshToken : M bool :=
  enter_refresh ;;;
  tokens <- read_tokens ;;
  if negb (truthy tokens) || negb (truthy (field tokens "refresh_token")) then
    console_log [JStr "No refresh token available"] ;;;
    ret false
  else
    try_catch
      (let refreshToken := field tokens "refresh_token" in
       let clientId := HUBSPOT_CLIENT_ID cfg in
       let clientSecret := HUBSPOT_CLIENT_SECRET cfg in
       response <- axios (mkRequest "POST" token_endpoint
                            (JObj [("refresh_token", refreshToken);
                                   ("client_id", clientId);
                                   ("client_secret", clientSecret);
                                   ("grant_type", JStr "refresh_token")])
                            JUndefined JUndefined) ;;
       let data := field response "data" in
       if truthy data && truthy (field data "access_token") then
         current <- read_tokens ;;
         t <- Date_now ;;
         write_tokens
           (JObj (obj_extend (spread current)
                    [("access_token", field data "access_token");
                     ("refresh_token", field data "refresh_token");
                     ("expires_in", field data "expires_in");
                     ("expiry_date",
                      JNum (num_add t
                              (num_mul (ToNumber (field data "expires_in"))
                                       (Num 1000))))])) ;;;
         saved <- read_tokens ;;
         saveTokens saved ;;;
         console_log [JStr "Token refreshed successfully"] ;;;
         ret true
       else ret false)
      (fun error =>
         console_error [JStr "Error refreshing token:"; JStr (message error)] ;;;
         match response error with
         | Some _ => console_error [JStr "Error details:"; response_data error]
         | None => ret tt
         end ;;;
         ret false).

(** *** What a route handler answers *)
Inductive res_body : Type :=
| Send (text : string)        (* res.send *)
| Json (v : jsval)            (* res.json *)
| Redirect (location : string). (* res.redirect *)

Record http_response : Type := mkResponse {
  code : Z;
  payload : res_body
}.

(** *** GET /oauth/callback (lines 252-310) *)
Definition oauth_callback (query : jsval) : M http_response :=
  let code := field query "code" in
  if negb (truthy code) then
    console_error [JStr "No code provided in callback"] ;;;
    ret (mkResponse 400
           (Send "Authentication failed: No authorization code provided"))
  else
    try_catch
      (console_log [JStr "Exchanging authorization code for tokens..."] ;;;
       let clientId := HUBSPOT_CLIENT_ID cfg in
       let clientSecret := HUBSPOT_CLIENT_SECRET cfg in
       let redirectUri := JStr "http://localhost:5000/oauth/callback" in
       response <- axios (mkRequest "POST" token_endpoint JNull
                            (JObj [("grant_type", JStr "authorization_code");
                                   ("client_id", clientId);
                                   ("client_secret", clientSecret);
                                   ("redirect_uri", redirectUri);
                                   ("code", code)])
                            JUndefined) ;;
       let data := field response "data" in
       (* the first read of response.data.* throws on a null body *)
       token_type <- member data "token_type" ;;
       console_log [JStr "Token exchange successful:";
                    JObj [("tokenType", token_type);
                          ("expiresIn", field data "expires_in");
                          ("hasAccessToken",
                           JBool (truthy (field data "access_token")));
                          ("hasRefreshToken",
                           JBool (truthy (field data "refresh_token")))]] ;;;
       t <- Date_now ;;
       write_tokens
         (JObj [("access_token", field data "access_token");
                ("refresh_token", field data "refresh_token");
                ("expiry_date",
                 JNum (num_add t
                         (num_mul (ToNumber (field data "expires_in"))
                                  (Num 1000))))]) ;;;
       saved <- read_tokens ;;
       saveTokens saved ;;;
       ret (mkResponse 302 (Redirect "/api/hubspot/contacts")))
      (fun error =>
         console_error [JStr "Error during OAuth callback:";
                        JStr (message error)] ;;;
         match response error with
         | Some r =>
             console_error [JStr "OAuth error response:";
                            JObj [("status", field r "status");
                                  ("statusText", field r "statusText");
                                  ("data", field r "data")]]
         | None => ret tt
         end ;;;
         ret (mkResponse 500
                (Send ("Authentication failed: " ++ message error)))).

(** *** GET /api/hubspot/check-token (lines 334-348) *)
Definition check_token : M http_response :=
  tokens <- read_tokens ;;
  t <- Date_now ;;
  let hasToken := truthy tokens in
  let isExpired :=
    if hasToken && truthy (field tokens "expiry_date")
    then num_ge t (ToNumber (field tokens "expiry_date"))
    else true in
  ret (mkResponse 200
         (Json (JObj [("hasToken", JBool hasToken);
                      ("isExpired", JBool isExpired);
                      ("action",
                       JStr (if hasToken
                             then if isExpired then "refresh needed"
                                  else "token valid"
                             else "authentication needed"));
                      ("links",
                       JObj [("auth", JStr "/auth/hubspot");
                             ("forceAuth", JStr "/auth/hubspot?force=true");
                             ("logout", JStr "/auth/logout")])]))).

(** The safety margin of the proxied calls: [5 * 60 * 1000] ms. *)
Definition margin : Z := 5 * 60 * 1000.

(** The check of lines 445 and 509:
    [hubspotTokens.expiry_date &&
     Date.now() >= hubspotTokens.expiry_date - 5 * 60 * 1000].
    It is exact for an expiry date that is absent, falsy or a number
    ([fresh_token] and [stale_token], further down); for one that is a text
    it is as far as [StringToNumber] goes. *)
Definition needs_refresh (tokens : jsval) (t : number) : bool :=
  truthy (field tokens "expiry_date")
  && num_ge t (num_sub (ToNumber (field tokens "expiry_date")) (Num margin)).

Definition bearer (accessToken : jsval) : jsval :=
  JObj [("Authorization", JStr ("Bearer " ++ ToString accessToken))].

(** *** GET /api/hubspot/contacts (lines 434-495) *)
Definition contacts_fetch : M http_response :=
  tokens <- read_tokens ;;
  let accessToken := field tokens "access_token" in
  response <- axios (mkRequest "GET"
                       "https://api.hubapi.com/crm/v3/objects/contacts"
                       JUndefined
                       (JObj [("limit", JNum (Num 100))])
                       (bearer accessToken)) ;;
  results <- member (field response "data") "results" ;;
  let contacts := js_or results (JArr []) in
  ret (mkResponse 200
         (Json (JObj [("status", JStr "success");
                      ("message", JStr "Retrieved contacts successfully");
                      ("count", js_length contacts);
                      ("contacts", contacts);
                      ("links",
                       JObj [("lists", JStr "/api/hubspot/lists");
                             ("logout", JStr "/auth/logout")])]))).

Definition contacts : M http_response :=
  try_catch
    (tokens <- read_tokens ;;
     if negb (truthy tokens) || negb (truthy (field tokens "access_token"))
     then
       ret (mkResponse 401
              (Json (JObj [("error", JStr "Authentication required");
                           ("authUrl", JStr "/auth/hubspot")])))
     else
       t <- Date_now ;;
       if needs_refresh tokens t then
         console_log [JStr "Token expired or about to expire, refreshing..."] ;;;
         refreshed <- refreshToken ;;
         if negb refreshed then
           ret (mkResponse 401
                  (Json (JObj [("error", JStr "Authentication failed");
                               ("message",
                                JStr "Failed to refresh authentication token");
                               ("authUrl", JStr "/auth/hubspot")])))
         else contacts_fetch
       else contacts_fetch)
    (fun error =>
       console_error [JStr "Error fetching HubSpot contacts:";
                      JStr (message error)] ;;;
       match response error with
       | Some _ => console_error [JStr "Error details:"; response_data error]
       | None => ret tt
       end ;;;
       ret (mkResponse 500
              (Json (JObj [("error", JStr "Failed to access HubSpot CRM");
                           ("message", JStr (message error));
                           ("details", response_data error);
                           ("authUrl", JStr "/auth/hubspot?force=true")])))).

(** *** GET /api/hubspot/lists (lines 498-557) *)
Definition lists_fetch : M http_response :=
  tokens <- read_tokens ;;
  let accessToken := field tokens "access_token" in
  response <- axios (mkRequest "GET"
                       "https://api.hubapi.com/contacts/v1/lists"
                       JUndefined JUndefined (bearer accessToken)) ;;
  found <- member (field response "data") "lists" ;;
  let lists := js_or found (JArr []) in
  ret (mkResponse 200
         (Json (JObj [("status", JStr "success");
                      ("count", js_length lists);
                      ("lists", lists);
                      ("links",
                       JObj [("contacts", JStr "/api/hubspot/contacts");
                             ("logout", JStr "/auth/logout")])]))).

Definition lists : M http_response :=
  try_catch
    (tokens <- read_tokens ;;
     if negb (truthy tokens) || negb (truthy (field tokens "access_token"))
     then
       ret (mkResponse 401
              (Json (JObj [("error", JStr "Authentication required");
                           ("authUrl", JStr "/auth/hubspot")])))
     else
       t <- Date_now ;;
       if needs_refresh tokens t then
         console_log [JStr "Token expired or about to expire, refreshing..."] ;;;
         refreshed <- refreshToken ;;
         if negb refreshed then
           ret (mkResponse 401
                  (Json (JObj [("error", JStr "Authentication failed");
                               ("message",
                                JStr "Failed to refresh authentication token");
                               ("authUrl", JStr "/auth/hubspot")])))
         else lists_fetch
       else lists_fetch)
    (fun error =>
       console_error [JStr "Error fetching HubSpot lists:";
                      JStr (message error)] ;;;
       match response error with
       | Some _ => console_error [JStr "Error details:"; response_data error]
       | None => ret tt
       end ;;;
       ret (mkResponse 500
              (Json (JObj [("error", JStr "Failed to access HubSpot lists");
                           ("message", JStr (message error));
                           ("details", response_data error);
                           ("links",
                            JObj [("contacts", JStr "/api/hubspot/contacts");
                                  ("authenticate",
                                   JStr "/auth/hubspot?force=true")])])))).

(** The two proxied data-fetch handlers. *)
Inductive endpoint : Type := Contacts | Lists.

Definition call (e : endpoint) : M http_response :=
  match e with
  | Contacts => contacts
  | Lists => lists
  end.

(** A process restart: memory is lost ([let hubspotTokens = null]), the disk
    is kept, and the startup code runs. *)
Definition restart (w : World) : World :=
  snd (load_tokens
         (mkWorld JNull (token_file w) (write_error w) [] [] (upstream w)
            (now w) 0)).

End Server.

(** ** Token objects that have a JSON text

    A flat object has distinct keys and only strings, integers, booleans and
    null as values: the token pair [{access_token, refresh_token,
    expiry_date}] that the callback stores, and the object that a refresh
    stores, are flat as soon as the upstream sent strings and integers. *)

Definition flat_value (v : jsval) : bool :=
  match v with
  | JNull | JBool _ | JNum (Num _) | JStr _ => true
  | _ => false
  end.

Fixpoint keys_distinct (fs : list (string * jsval)) : bool :=
  match fs with
  | [] => true
  | (k, _) :: fs' =>
      negb (existsb (String.eqb k) (map fst fs')) && keys_distinct fs'
  end.

Definition flat_object (v : jsval) : bool :=
  match v with
  | JObj fs => forallb (fun kv => flat_value (snd kv)) fs && keys_distinct fs
  | _ => false
  end.

Definition flat_text (v : jsval) : string :=
  match ser gap v with
  | Some t => t
  | None => EmptyString
  end.

Definition flat_token (v : jsval) : token :=
  match v with
  | JStr s => TString s
  | JNum (Num z) => TNumber z
  | JBool true => TTrue
  | JBool false => TFalse
  | _ => TNull
  end.

Definition member_text (kv : string * jsval) : string :=
  quote (fst kv) ++ ": " ++ flat_text (snd kv).

Fixpoint member_tokens (fs : list (string * jsval)) : list token :=
  match fs with
  | [] => []
  | (k, v) :: fs' =>
      TString k :: TColon :: flat_token v ::
      match fs' with
      | [] => []
      | _ => TComma :: member_tokens fs'
      end
  end.

(** A character that cannot continue a numeral. *)
Definition ends_number (c : ascii) : Prop :=
  forall acc, uint_of_char c (Some acc) = None.

(** The text between two members of an object at the top level. *)
Definition separator : string := "," ++ nl ++ gap.

(** ** Vocabulary of the specification *)

Section Store.

Variable cfg : Config.

(** TokenStore's [set]: the assignment to [hubspotTokens] followed by
    [saveTokens(hubspotTokens)], as at lines 75-84 and 286-293. *)
Definition set_tokens (pair : jsval) : M unit :=
  write_tokens pair ;;;
  saved <- read_tokens ;;
  saveTokens cfg saved.


End Store.

(** The [isExpired] member of the answer of the token-status query. *)
Definition reported_isExpired (w : World) : jsval :=
  match fst (check_token w) with
  | Ok (mkResponse _ (Json v)) => field v "isExpired"
  | _ => JUndefined
  end.

(** The token pair of the specification. *)
Definition token_pair (access refresh : string) (expiry : Z) : jsval :=
  JObj [("access_token", JStr access);
        ("refresh_token", JStr refresh);
        ("expiry_date", JNum (Num expiry))].

Definition is_get (r : request) : bool := (method r =? "GET")%string.

(** *** Sample configurations and worlds *)

Definition sample_message (e : engine_error) : string :=
  match e with
  | BadJSON _ => "Unexpected end of JSON input"
  | NullishRead v k =>
      "Cannot read properties of " ++ ToString v ++ " (reading '" ++ k ++ "')"
  | BadFileData => "The data argument must be of type string"
  end.

Definition dev : Config :=
  mkConfig false (JStr "client-id") (JStr "client-secret") sample_message.

Definition prod : Config :=
  mkConfig true (JStr "client-id") (JStr "client-secret") sample_message.

(** A quiet process: nothing logged or sent yet, no token file. *)
Definition quiet (tokens : jsval) (t : Z) (replies : list (Z * reply)) : World :=
  mkWorld tokens Absent None [] [] replies t 0.

(** The same on a file system that refuses writes. *)
Definition read_only (tokens : jsval) (t : Z) : World :=
  mkWorld tokens Absent (Some "EROFS: read-only file system") [] [] [] t 0.

(** The refresh response of the specification's scenario. *)
Definition scenario_reply : reply :=
  Reply 200 (JObj [("access_token", JStr "new123");
                   ("expires_in", JNum (Num 3600))]).

(** The status code of the answer of a handler, if it answered. *)
Definition code_of (o : outcome http_response) : option Z :=
  match o with
  | Ok resp => Some (code resp)
  | Throw _ => None
  end.

(** ** The other routes *)

(** *** Built-ins they use *)

(** [fs.unlinkSync(TOKEN_PATH)].  Removing the file is a write to the file
    system: where writes are refused, it throws what a write throws. *)
Definition fs_unlinkSync : M unit :=
  fun w =>
    match token_file w, write_error w with
    | Absent, _ =>
        (Throw (mkError "ENOENT: no such file or directory" None), w)
    | _, Some why => (Throw (mkError why None), w)
    | _, None =>
        (Ok tt,
         mkWorld (hubspotTokens w) Absent (write_error w) (console w)
           (sent w) (upstream w) (now w) (refresh_calls w))
    end.

(** [encodeURIComponent]: letters, digits and [-_.!~*'()] stay, every other
    character becomes the percent-escapes of its UTF-8 bytes. *)
Definition uri_unreserved (c : ascii) : bool :=
  let n := N_of_ascii c in
  (((65 <=? n) && (n <=? 90)) || ((97 <=? n) && (n <=? 122))
   || ((48 <=? n) && (n <=? 57)))%N
  || match c with
     | "-"%char | "_"%char | "."%char | "!"%char | "~"%char | "*"%char
     | "'"%char | "("%char | ")"%char => true
     | _ => false
     end.

Definition hex_upper (n : N) : ascii :=
  if (n <? 10)%N then ascii_of_N (48 + n) else ascii_of_N (55 + n).

Definition percent (n : N) : string :=
  String "%" (String (hex_upper (n / 16))
                (String (hex_upper (n mod 16)) EmptyString)).

Definition encode_char (c : ascii) : string :=
  let n := N_of_ascii c in
  if uri_unreserved c then String c EmptyString
  else if (n <? 128)%N then percent n
  else percent (192 + n / 64) ++ percent (128 + n mod 64).

Fixpoint encodeURIComponent (s : string) : string :=
  match s with
  | EmptyString => EmptyString
  | String c s' => encode_char c ++ encodeURIComponent s'
  end.

(** [Object.keys(v).length] for a [v] that is neither null nor undefined. *)
Definition keys_count (v : jsval) : jsval :=
  match v with
  | JObj fs => JNum (Num (Z.of_nat (List.length fs)))
  | JArr l => JNum (Num (Z.of_nat (List.length l)))
  | JStr s => JNum (Num (Z.of_nat (String.length s)))
  | _ => JNum (Num 0)
  end.

(** *** Dates: [new Date(v).toISOString()] *)

(** TimeClip: a time value is at most 8.64e15 ms away from the epoch. *)
Definition time_clip (n : number) : number :=
  match n with
  | Num t => if Z.abs t <=? 8640000000000000 then Num t else NaN
  | NaN => NaN
  end.

(** Year, month and day of the day that is [days] days after 1970-01-01,
    in the proleptic Gregorian calendar. *)
Definition civil_from_days (days : Z) : Z * Z * Z :=
  let z := days + 719468 in
  let era := z / 146097 in
  let doe := z - era * 146097 in
  let yoe := (doe - doe / 1460 + doe / 36524 - doe / 146096) / 365 in
  let doy := doe - (365 * yoe + yoe / 4 - yoe / 100) in
  let mp := (5 * doy + 2) / 153 in
  let d := doy - (153 * mp + 2) / 5 + 1 in
  let m := if mp <? 10 then mp + 3 else mp - 9 in
  let y := yoe + era * 400 + (if m <=? 2 then 1 else 0) in
  (y, m, d).

Fixpoint zeros (n : nat) : string :=
  match n with
  | O => EmptyString
  | S n' => String "0" (zeros n')
  end.

(** A natural number written with at least [width] digits. *)
Definition pad (width : nat) (z : Z) : string :=
  let s := string_of_Z z in
  zeros (width - String.length s) ++ s.

Definition iso_year (y : Z) : string :=
  if (0 <=? y) && (y <=? 9999) then pad 4 y
  else (if y <? 0 then "-" else "+") ++ pad 6 (Z.abs y).

(** The text of [toISOString] for a time value. *)
Definition iso_string (t : Z) : string :=
  let days := t / 86400000 in
  let ms := t mod 86400000 in
  let '(y, m, d) := civil_from_days days in
  iso_year y ++ "-" ++ pad 2 m ++ "-" ++ pad 2 d ++ "T"
  ++ pad 2 (ms / 3600000) ++ ":" ++ pad 2 (ms / 60000 mod 60) ++ ":"
  ++ pad 2 (ms / 1000 mod 60) ++ "." ++ pad 3 (ms mod 1000) ++ "Z".

Section Routes.

Variable cfg : Config.

(** [process.env.HUBSPOT_APP_ID], which only the debug route reads. *)
Variable HUBSPOT_APP_ID : jsval.

(** [Date.parse], whose result on texts that are not in the ISO format is
    left to the engine. *)
Variable Date_parse : string -> number.

(** The time value of [new Date(v)]. *)
Definition new_Date (v : jsval) : number :=
  time_clip match v with
            | JStr s => Date_parse s
            | JArr _ | JObj _ => Date_parse (ToString v)
            | _ => ToNumber v
            end.

(** [date.toISOString()]: a RangeError on an invalid date. *)
Definition toISOString (t : number) : M jsval :=
  match t with
  | Num z => ret (JStr (iso_string z))
  | NaN => throw (mkError "Invalid time value" None)
  end.

(** [v.substring(0, 10) + '...']: only strings have the method. *)
Definition first10 (v : jsval) : M jsval :=
  match v with
  | JStr s => ret (JStr (substring 0 10 s ++ "..."))
  | JUndefined | JNull =>
      throw (mkError (engine_message cfg (NullishRead v "substring")) None)
  | _ =>
      throw (mkError "hubspotTokens.access_token.substring is not a function"
               None)
  end.

(** The removal of the token file, in development only (lines 235-242 and
    317-324). *)
Definition remove_token_file : M unit :=
  try_catch
    (present <- fs_existsSync ;;
     if negb (isProduction cfg) && present then
       fs_unlinkSync ;;;
       console_log [JStr "Tokens file deleted"]
     else ret tt)
    (fun error =>
       console_error [JStr "Error deleting tokens file:";
                      JStr (message error)]).

(** The authorization URL of line 245. *)
Definition authUrl : string :=
  "https://app-na2.hubspot.com/oauth/authorize?client_id="
  ++ ToString (HUBSPOT_CLIENT_ID cfg)
  ++ "&redirect_uri="
  ++ encodeURIComponent "http://localhost:5000/oauth/callback"
  ++ "&scope="
  ++ encodeURIComponent
       "crm.lists.read crm.objects.contacts.read crm.objects.custom.read crm.schemas.contacts.read crm.schemas.custom.read oauth".

(** *** GET /auth/hubspot (lines 218-249) *)
Definition auth_hubspot (query : jsval) : M http_response :=
  let forceReauth :=
    match field query "force" with
    | JStr s => (s =? "true")%string
    | _ => false
    end in
  tokens <- read_tokens ;;
  (if forceReauth && truthy tokens then
     console_log [JStr "Force reauthorization requested, clearing tokens"] ;;;
     write_tokens JNull ;;;
     remove_token_file
   else ret tt) ;;;
  console_log [JStr ("Redirecting to HubSpot authorization page: " ++ authUrl)] ;;;
  ret (mkResponse 302 (Redirect authUrl)).

(** *** GET /auth/logout (lines 313-331) *)
Definition logout : M http_response :=
  write_tokens JNull ;;;
  remove_token_file ;;;
  ret (mkResponse 200
         (Json (JObj [("status", JStr "success");
                      ("message", JStr "Logged out successfully");
                      ("authUrl", JStr "/auth/hubspot")]))).

(** *** GET /api/hubspot/debug (lines 351-431) *)

Definition schemas_url : string :=
  "https://api.hubapi.com/crm/v3/schemas/contacts".

(** The request of lines 368-372 and 390-394, with the token stored at that
    moment. *)
Definition debug_get : M jsval :=
  tokens <- read_tokens ;;
  axios (mkRequest "GET" schemas_url JUndefined JUndefined
           (bearer (field tokens "access_token"))).

(** The summary of a response (lines 373-377 and 395-400). *)
Definition api_summary (response : jsval) (note : list (string * jsval))
  : M jsval :=
  let data := field response "data" in
  properties <- member cfg data "properties" ;;
  ret (JObj ([("status", field response "status");
              ("hasData", JBool (truthy data));
              ("properties",
               if truthy properties then keys_count properties
               else JNum (Num 0))] ++ note)%list).

(** The summary of an error: [message], [error.response?.status] and
    [error.response?.data]. *)
Definition error_summary (error : jserror) : list (string * jsval) :=
  [("message", JStr (message error));
   ("status",
    match response error with
    | Some r => field r "status"
    | None => JUndefined
    end);
   ("data", response_data error)].

(** [error.response?.status === 401] *)
Definition unauthorized (error : jserror) : bool :=
  match response error with
  | Some r =>
      match field r "status" with
      | JNum (Num z) => z =? 401
      | _ => false
      end
  | None => false
  end.

(** The test call of lines 366-413: the pair [(apiResponse, apiError)]. *)
Definition debug_probe : M (jsval * jsval) :=
  try_catch
    (response <- debug_get ;;
     apiResponse <- api_summary response [] ;;
     ret (apiResponse, JNull))
    (fun error =>
       let apiError := error_summary error in
       if unauthorized error then
         refreshed <- refreshToken cfg ;;
         if refreshed then
           try_catch
             (retryResponse <- debug_get ;;
              apiResponse <-
                api_summary retryResponse
                  [("note", JStr "This was after token refresh")] ;;
              ret (apiResponse, JObj apiError))
             (fun retryError =>
                ret (JNull,
                     JObj (obj_set "retryError"
                             (JObj (error_summary retryError)) apiError)))
         else
           ret (JNull,
                JObj (obj_set "refreshResult"
                        (JStr "Token refresh failed") apiError))
       else ret (JNull, JObj apiError)).

Definition debug : M http_response :=
  try_catch
    (tokens <- read_tokens ;;
     accessToken <-
       (if truthy tokens then first10 (field tokens "access_token")
        else ret JNull) ;;
     expiry <-
       (if truthy tokens
        then toISOString (new_Date (field tokens "expiry_date"))
        else ret JNull) ;;
     t <- Date_now ;;
     let tokenInfo :=
       JObj [("hasToken", JBool (truthy tokens));
             ("accessToken", accessToken);
             ("hasRefreshToken",
              JBool (truthy (field tokens "refresh_token")));
             ("expiry", expiry);
             ("isExpired",
              if truthy tokens
              then JBool (num_ge t (ToNumber (field tokens "expiry_date")))
              else JNull)] in
     probe <-
       (if truthy tokens && truthy (field tokens "access_token")
        then debug_probe
        else ret (JNull, JNull)) ;;
     ret (mkResponse 200
            (Json (JObj [("tokenInfo", tokenInfo);
                         ("apiResponse", fst probe);
                         ("apiError", snd probe);
                         ("env",
                          JObj [("hasAppId", JBool (truthy HUBSPOT_APP_ID));
                                ("hasClientId",
                                 JBool (truthy (HUBSPOT_CLIENT_ID cfg)));
                                ("hasClientSecret",
                                 JBool (truthy (HUBSPOT_CLIENT_SECRET cfg)))])]))))
    (fun error =>
       ret (mkResponse 500
              (Json (JObj [("error", JStr "Debug endpoint error");
                           ("message", JStr (message error))])))).

End Routes.

(** The member of the upstream body that holds the items of an endpoint, and
    the member of the answer that carries them (lines 471-477, 531-536). *)
Definition items_key (e : endpoint) : string :=
  match e with
  | Contacts => "results"
  | Lists => "lists"
  end.

Definition answer_key (e : endpoint) : string :=
  match e with
  | Contacts => "contacts"
  | Lists => "lists"
  end.

(** The answer of a handler, if it answered with JSON. *)
Definition json_of (o : outcome http_response) : jsval :=
  match o with
  | Ok (mkResponse _ (Json v)) => v
  | _ => JUndefined
  end.

(** An engine that reads no date out of a text that is not a date. *)
Definition no_date (s : string) : number := NaN.

(** ** Where the integer model is exact

    JavaScript numbers are doubles: integers between [-(2^53 - 1)] and
    [2^53 - 1] are exact, and a sum or a product of integers whose exact
    value lies in that range is computed exactly.  The statements that give
    the value of a computed expiry date are made for that range, and for
    lifetimes and expiry dates that are numbers (not texts to be
    converted). *)

Definition MAX_SAFE_INTEGER : Z := 2 ^ 53 - 1.

Definition safe (z : Z) : Prop :=
  - MAX_SAFE_INTEGER <= z <= MAX_SAFE_INTEGER.

(** [t + n * 1000] is computed exactly. *)
Definition safe_lifetime (t n : Z) : Prop :=
  safe t /\ safe (n * 1000) /\ safe (t + n * 1000).

(** The stored token needs no refresh at the time of the call: it has no
    expiry date, or a numeric one more than the margin ahead. *)
Definition fresh_token (w : World) : Prop :=
  truthy (field (hubspotTokens w) "expiry_date") = false
  \/ exists e,
       field (hubspotTokens w) "expiry_date" = JNum (Num e)
       /\ safe (e - margin) /\ now w + margin < e.

(** The stored token has a numeric expiry date that is set and at most the
    margin ahead. *)
Definition stale_token (w : World) : Prop :=
  exists e,
    field (hubspotTokens w) "expiry_date" = JNum (Num e)
    /\ e <> 0 /\ e <= now w + margin.

(** ** Well-formed JSON

    [JSON_parse] gives [None] both on a text that is not JSON and on a JSON
    text outside the model (a numeral with a fraction or an exponent, an
    escape of a character beyond the 8-bit range).  [is_json] tells the two
    apart: it follows the lexer of the model and goes on where that one
    stops on such a numeral or escape, so that it accepts exactly the texts
    of the JSON grammar, the ones on which [JSON.parse] does not throw. *)

Inductive scanst : Type :=
| SModel (st : lexst)
| SFrac0          (* after the point of a numeral *)
| SFrac           (* inside the fraction *)
| SExp0           (* after e or E *)
| SExp1           (* after the sign of the exponent *)
| SExp.           (* inside the exponent *)

Definition is_digit (c : ascii) : bool :=
  match uint_of_char c (Some Nil) with
  | Some _ => true
  | None => false
  end.

Definition is_exp_mark (c : ascii) : bool :=
  match c with
  | "e"%char | "E"%char => true
  | _ => false
  end.

(** The numeral is over at [c], which is read as after any token. *)
Definition end_numeral (c : ascii) : option (scanst * list token) :=
  match step_idle c with
  | Some (st', ts) => Some (SModel st', TNumber 0 :: ts)
  | None => None
  end.

Definition scan_step (s : scanst) (c : ascii)
  : option (scanst * list token) :=
  match s with
  | SModel st =>
      match step st c with
      | Some (st', ts) => Some (SModel st', ts)
      | None =>
          match st with
          | LNum neg acc =>
              match finish_number neg acc with
              | Some _ =>
                  if (c =? ".")%char then Some (SFrac0, [])
                  else if is_exp_mark c then Some (SExp0, [])
                  else None
              | None => None
              end
          | LHex acc 1%nat code =>
              match hex_value c with
              | Some _ => Some (SModel (LStr acc), [])
              | None => None
              end
          | _ => None
          end
      end
  | SFrac0 => if is_digit c then Some (SFrac, []) else None
  | SFrac =>
      if is_digit c then Some (SFrac, [])
      else if is_exp_mark c then Some (SExp0, [])
      else end_numeral c
  | SExp0 =>
      if is_digit c then Some (SExp, [])
      else match c with
           | "+"%char | "-"%char => Some (SExp1, [])
           | _ => None
           end
  | SExp1 => if is_digit c then Some (SExp, []) else None
  | SExp => if is_digit c then Some (SExp, []) else end_numeral c
  end.

Definition scan_finish (s : scanst) : option (list token) :=
  match s with
  | SModel st => finish st
  | SFrac | SExp => Some [TNumber 0]
  | SFrac0 | SExp0 | SExp1 => None
  end.

Fixpoint scan (s : scanst) (out : list token) (text : string)
  : option (list token) :=
  match text with
  | EmptyString =>
      match scan_finish s with
      | Some ts => Some (List.rev (List.rev_append ts out))
      | None => None
      end
  | String c text' =>
      match scan_step s c with
      | Some (s', ts) => scan s' (List.rev_append ts out) text'
      | None => None
      end
  end.

(** The text is JSON: its tokens are those of the grammar and they form one
    value (what the tokens hold does not matter). *)
Definition is_json (text : string) : bool :=
  match scan (SModel LIdle) [] text with
  | Some ts =>
      match parse_tokens PValue [] ts with
      | Some _ => true
      | None => false
      end
  | None => false
  end.

(** ** The value model on examples *)

Example ToNumber_digits : ToNumber (JStr " 3600 ") = Num 3600.
Proof. reflexivity. Qed.

Example ToNumber_text : ToNumber (JStr "soon") = NaN.
Proof. reflexivity. Qed.

Example ToString_array :
  ToString (JArr [JNum (Num 12); JNull; JStr "x"]) = "12,,x".
Proof. reflexivity. Qed.

Example parse_leading_zero : JSON_parse "01" = None.
Proof. reflexivity. Qed.

Example parse_trailing_comma : JSON_parse "[1,]" = None.
Proof. reflexivity. Qed.

Example parse_array :
  JSON_parse " [1 , -2,{} ,null] "
  = Some (JArr [JNum (Num 1); JNum (Num (-2)); JObj []; JNull]).
Proof. reflexivity. Qed.

Example stringify_drops_undefined :
  JSON_stringify (JObj [("access_token", JUndefined);
                        ("expiry_date", JNum NaN)])
  = option_map (fun t => t)
      (JSON_stringify (JObj [("expiry_date", JNull)])).
Proof. reflexivity. Qed.

Example stringify_parse_nested :
  let v := JObj [("a", JArr [JBool true; JObj [("b", JStr "x/y")]]);
                 ("n", JNum (Num (-40)))] in
  option_map JSON_parse (JSON_stringify v) = Some (Some v).
Proof. reflexivity. Qed.

(** * Properties *)

(** ** JSON text: what [JSON.parse] reads back from [JSON.stringify] *)

Lemma append_assoc (a b c : string) : ((a ++ b) ++ c)%string = (a ++ (b ++ c))%string.
Proof. induction a as [|x a IH]; cbn; [reflexivity | now rewrite IH]. Qed.

Lemma lex_escape_char c acc out rest :
  lex (LStr acc) out (escape_char c ++ rest) = lex (LStr (String c acc)) out rest.
Proof. destruct c as [[] [] [] [] [] [] [] []]; reflexivity. Qed.

Lemma lex_escape s : forall acc out rest,
  lex (LStr acc) out (escape s ++ String dquote rest)
  = lex LIdle (TString (rev_string acc s) :: out) rest.
Proof.
  induction s as [|c s IH]; intros acc out rest.
  - reflexivity.
  - cbn [escape]. rewrite append_assoc, lex_escape_char, IH. reflexivity.
Qed.

Lemma lex_quote s out rest :
  lex LIdle out (quote s ++ rest) = lex LIdle (TString s :: out) rest.
Proof.
  unfold quote. cbn [append]. rewrite append_assoc. cbn [append].
  change (lex LIdle out (String dquote (escape s ++ String dquote rest)))
    with (lex (LStr EmptyString) out (escape s ++ String dquote rest)).
  now rewrite lex_escape.
Qed.

Lemma lex_digits d : forall neg acc out rest,
  lex (LNum neg acc) out (NilEmpty.string_of_uint d ++ rest)
  = lex (LNum neg (revapp d acc)) out rest.
Proof.
  induction d; intros neg acc out rest; cbn [NilEmpty.string_of_uint append revapp];
    [reflexivity | ..]; rewrite <- IHd; reflexivity.
Qed.

Lemma to_uint_unorm p : unorm (Pos.to_uint p) = Pos.to_uint p.
Proof.
  rewrite <- (DecimalPos.Unsigned.to_of (Pos.to_uint p)).
  now rewrite DecimalPos.Unsigned.of_to.
Qed.

Lemma finish_number_printed neg p :
  finish_number neg (rev (Pos.to_uint p))
  = Some (TNumber (if neg then Z.neg p else Z.pos p)).
Proof.
  unfold finish_number. rewrite rev_rev.
  destruct (Pos.to_uint p) eqn:E;
    try (now elim (DecimalPos.Unsigned.to_uint_nonnil p));
    rewrite <- E, to_uint_unorm, (internal_uint_dec_lb _ _ eq_refl);
    unfold Z.of_uint; rewrite DecimalPos.Unsigned.of_to; now destruct neg.
Qed.

Lemma lex_number_end neg acc t c rest out :
  uint_of_char c (Some acc) = None ->
  finish_number neg acc = Some t ->
  lex (LNum neg acc) out (String c rest) = lex LIdle (t :: out) (String c rest).
Proof.
  intros Hc Hf. cbn [lex step]. rewrite Hc, Hf.
  destruct (step_idle c) as [[st' ts]|]; reflexivity.
Qed.

Lemma lex_idle_digits d out rest :
  d <> Nil ->
  lex LIdle out (NilEmpty.string_of_uint d ++ rest)
  = lex (LNum false (rev d)) out rest.
Proof.
  intros Hd. unfold rev. rewrite <- lex_digits.
  destruct d; [now elim Hd | ..]; reflexivity.
Qed.

Lemma string_of_uint_nonnil d :
  d <> Nil -> NilZero.string_of_uint d = NilEmpty.string_of_uint d.
Proof. destruct d; [intros H; now elim H | ..]; reflexivity. Qed.

Lemma lex_number z c rest out :
  ends_number c ->
  lex LIdle out (string_of_Z z ++ String c rest)
  = lex LIdle (TNumber z :: out) (String c rest).
Proof.
  intros Hc. unfold string_of_Z.
  destruct z as [|p|p]; cbn [Z.to_int NilZero.string_of_int].
  - apply (lex_number_end false (D0 Nil)); [apply Hc | reflexivity].
  - pose proof (DecimalPos.Unsigned.to_uint_nonnil p) as Hn.
    rewrite string_of_uint_nonnil, lex_idle_digits by exact Hn.
    apply lex_number_end; [apply Hc | apply finish_number_printed].
  - pose proof (DecimalPos.Unsigned.to_uint_nonnil p) as Hn.
    rewrite string_of_uint_nonnil by exact Hn. cbn [append].
    change (lex LIdle out
              (String "-" (NilEmpty.string_of_uint (Pos.to_uint p) ++ String c rest)))
      with (lex (LNum true Nil) out
              (NilEmpty.string_of_uint (Pos.to_uint p) ++ String c rest)).
    rewrite lex_digits.
    apply lex_number_end; [apply Hc | apply (finish_number_printed true)].
Qed.

Lemma comma_ends_number : ends_number ","%char.
Proof. intro; reflexivity. Qed.

Lemma newline_ends_number : ends_number "010"%char.
Proof. intro; reflexivity. Qed.

Lemma lex_flat v c rest out :
  flat_value v = true -> ends_number c ->
  lex LIdle out (flat_text v ++ String c rest)
  = lex LIdle (flat_token v :: out) (String c rest).
Proof.
  intros Hv Hc. destruct v as [| |[]|[z|]|s| |]; try discriminate Hv;
    try reflexivity.
  - apply lex_number, Hc.
  - apply lex_quote.
Qed.

Lemma lex_member kv c rest out :
  flat_value (snd kv) = true -> ends_number c ->
  lex LIdle out (member_text kv ++ String c rest)
  = lex LIdle (flat_token (snd kv) :: TColon :: TString (fst kv) :: out)
      (String c rest).
Proof.
  intros Hv Hc. unfold member_text.
  rewrite append_assoc, lex_quote. cbn [append].
  change (lex LIdle (TString (fst kv) :: out)
            (String ":" (String " " (flat_text (snd kv) ++ String c rest))))
    with (lex LIdle (TColon :: TString (fst kv) :: out)
            (flat_text (snd kv) ++ String c rest)).
  now apply lex_flat.
Qed.


Lemma lex_members fs : forall out rest,
  fs <> [] ->
  forallb (fun kv => flat_value (snd kv)) fs = true ->
  lex LIdle out (join separator (map member_text fs) ++ String "010" rest)
  = lex LIdle (List.rev (member_tokens fs) ++ out)%list (String "010" rest).
Proof.
  induction fs as [|[k v] fs IH]; intros out rest Hne Hflat; [now elim Hne|].
  cbn [forallb] in Hflat. apply andb_true_iff in Hflat as [Hv Hfs].
  destruct fs as [|kv' fs'].
  - cbn [map join member_tokens]. rewrite (lex_member (k, v)) by
      (assumption || apply newline_ends_number).
    reflexivity.
  - change (join separator (map member_text ((k, v) :: kv' :: fs')))
      with (member_text (k, v) ++ separator
            ++ join separator (map member_text (kv' :: fs')))%string.
    rewrite append_assoc. unfold separator at 1. cbn [append nl gap].
    rewrite (lex_member (k, v)) by (assumption || apply comma_ends_number).
    change (lex LIdle (flat_token (snd (k, v)) :: TColon :: TString (fst (k, v)) :: out)
              (String "," (String "010" (String " " (String " "
                 (join separator (map member_text (kv' :: fs')) ++ String "010" rest))))))
      with (lex LIdle (TComma :: flat_token v :: TColon :: TString k :: out)
              (join separator (map member_text (kv' :: fs')) ++ String "010" rest)).
    rewrite IH by (assumption || discriminate).
    destruct kv' as [k' v']. cbn [member_tokens List.rev].
    repeat rewrite <- app_assoc. reflexivity.
Qed.

Lemma ser_flat_value v ind :
  flat_value v = true -> ser ind v = Some (flat_text v).
Proof. destruct v as [| |[]|[z|]|s| |]; try discriminate; reflexivity. Qed.

Lemma object_parts_flat ind fs :
  forallb (fun kv => flat_value (snd kv)) fs = true ->
  object_parts (ser ind) fs = map member_text fs.
Proof.
  induction fs as [|[k v] fs IH]; intros H; [reflexivity|].
  cbn [forallb] in H. apply andb_true_iff in H as [Hv Hfs].
  cbn [object_parts map]. cbn [snd] in Hv. rewrite (ser_flat_value v ind Hv).
  now rewrite <- IH.
Qed.

Lemma stringify_flat fs :
  forallb (fun kv => flat_value (snd kv)) fs = true ->
  JSON_stringify (JObj fs)
  = Some match fs with
         | [] => "{}"
         | _ => "{" ++ nl ++ gap ++ join separator (map member_text fs)
                ++ nl ++ "}"
         end.
Proof.
  intros H. unfold JSON_stringify. cbn [ser].
  rewrite (object_parts_flat _ fs H). destruct fs; reflexivity.
Qed.

Lemma lex_flat_object fs :
  forallb (fun kv => flat_value (snd kv)) fs = true ->
  forall text, JSON_stringify (JObj fs) = Some text ->
  lex LIdle [] text = Some (TLBrace :: member_tokens fs ++ [TRBrace])%list.
Proof.
  intros H text Ht. rewrite (stringify_flat fs H) in Ht.
  injection Ht as <-. destruct fs as [|kv fs]; [reflexivity|].
  cbn [append nl gap].
  change (lex LIdle [] (String "{" (String "010" (String " " (String " "
            (join separator (map member_text (kv :: fs))
             ++ String "010" "}"))))))
    with (lex LIdle [TLBrace]
            (join separator (map member_text (kv :: fs)) ++ String "010" "}")).
  rewrite lex_members by (assumption || discriminate).
  cbn [lex step step_idle finish List.rev_append].
  cbn [List.rev]. rewrite rev_app_distr, rev_involutive. reflexivity.
Qed.

Lemma obj_set_fresh k v fs :
  existsb (String.eqb k) (map fst fs) = false ->
  obj_set k v fs = (fs ++ [(k, v)])%list.
Proof.
  induction fs as [|[k' v'] fs IH]; cbn; [reflexivity|].
  intros H. apply orb_false_iff in H as [Hk Hfs].
  rewrite Hk. now rewrite IH.
Qed.

Lemma pvalue_flat v stk :
  flat_value v = true -> pvalue stk (flat_token v) = Some (PAfter v, stk).
Proof. destruct v as [| |[]|[z|]|s| |]; try discriminate; reflexivity. Qed.

Lemma keys_distinct_app done k v fs :
  keys_distinct (done ++ (k, v) :: fs) = true ->
  existsb (String.eqb k) (map fst done) = false
  /\ keys_distinct ((done ++ [(k, v)]) ++ fs) = true.
Proof.
  intros H. split.
  - induction done as [|[k' v'] done IH]; [reflexivity|].
    cbn in H |- *. apply andb_true_iff in H as [Hk Hd].
    rewrite (IH Hd), orb_false_r.
    rewrite map_app, existsb_app in Hk. cbn in Hk.
    apply negb_true_iff, orb_false_iff in Hk as [_ Hk].
    apply orb_false_iff in Hk as [Hk _].
    now rewrite String.eqb_sym.
  - now rewrite <- app_assoc.
Qed.

Lemma parse_members fs : forall done,
  fs <> [] ->
  forallb (fun kv => flat_value (snd kv)) fs = true ->
  keys_distinct (done ++ fs) = true ->
  parse_tokens (PKey done) [] (member_tokens fs ++ [TRBrace])
  = Some (JObj (done ++ fs)).
Proof.
  induction fs as [|[k v] fs IH]; intros done Hne Hflat Hkeys; [now elim Hne|].
  cbn [forallb snd] in Hflat. apply andb_true_iff in Hflat as [Hv Hfs].
  destruct (keys_distinct_app _ _ _ _ Hkeys) as [Hfresh Hkeys'].
  cbn [member_tokens List.app parse_tokens pstep].
  destruct fs as [|kv' fs'].
  - cbn [List.app parse_tokens pstep]. rewrite (pvalue_flat v _ Hv).
    cbn [parse_tokens pstep]. now rewrite obj_set_fresh.
  - cbn [List.app parse_tokens pstep]. rewrite (pvalue_flat v _ Hv).
    cbn [parse_tokens pstep]. rewrite obj_set_fresh by assumption.
    rewrite IH by (assumption || discriminate).
    now rewrite <- app_assoc.
Qed.

(** Reading back the text of a flat object gives the object. *)
Lemma parse_stringify_flat v :
  flat_object v = true ->
  exists text, JSON_stringify v = Some text /\ JSON_parse text = Some v.
Proof.
  destruct v as [| | | | | |fs]; try discriminate. cbn [flat_object].
  intros H. apply andb_true_iff in H as [Hflat Hkeys].
  eexists. split; [apply (stringify_flat fs Hflat)|].
  unfold JSON_parse.
  rewrite (lex_flat_object fs Hflat _ (stringify_flat fs Hflat)).
  destruct fs as [|[k v] fs]; [reflexivity|].
  change (parse_tokens PValue [] (TLBrace :: member_tokens ((k, v) :: fs) ++ [TRBrace]))
    with (parse_tokens (PKey []) [] (member_tokens ((k, v) :: fs) ++ [TRBrace])).
  now rewrite parse_members by (assumption || discriminate).
Qed.

(** ** The monad: how the code of the server runs *)

#[local] Arguments JSON_stringify : simpl never.
#[local] Arguments obj_extend : simpl never.
#[local] Arguments spread : simpl never.
#[local] Arguments string_of_Z : simpl never.
#[local] Arguments ToNumber : simpl never.
#[local] Arguments num_add : simpl never.
#[local] Arguments num_mul : simpl never.
#[local] Arguments num_sub : simpl never.
#[local] Arguments num_ge : simpl never.

Ltac run_m :=
  unfold call, contacts, lists, contacts_fetch, lists_fetch, oauth_callback,
    check_token, refreshToken, saveTokens, load_tokens, parse_json, member,
    axios, fs_writeFileSync, fs_readFileSync, fs_existsSync, enter_refresh,
    console_log, console_error, console_out, Date_now, write_tokens,
    read_tokens, try_catch, throw, bind, ret;
  cbn.

Ltac case_m :=
  repeat match goal with
    | |- context [match ?x with _ => _ end] =>
        lazymatch x with
        | context [match _ with _ => _ end] => fail
        | _ => destruct x eqn:?; cbn in *
        end
    end.

Lemma saveTokens_frame cfg tokens w :
  fst (saveTokens cfg tokens w) = Ok tt
  /\ hubspotTokens (snd (saveTokens cfg tokens w)) = hubspotTokens w
  /\ sent (snd (saveTokens cfg tokens w)) = sent w
  /\ upstream (snd (saveTokens cfg tokens w)) = upstream w
  /\ now (snd (saveTokens cfg tokens w)) = now w
  /\ refresh_calls (snd (saveTokens cfg tokens w)) = refresh_calls w.
Proof.
  run_m. case_m; repeat split; reflexivity.
Qed.

Lemma refresh_counts cfg w :
  refresh_calls (snd (refreshToken cfg w)) = S (refresh_calls w).
Proof.
  run_m. case_m; reflexivity.
Qed.

Lemma field_truthy_obj v k :
  truthy (field v k) = true -> exists fs, v = JObj fs.
Proof. destruct v; try discriminate; eauto. Qed.

Lemma lookup_obj_set k v fs k' :
  lookup k' (obj_set k v fs)
  = if (k' =? k)%string then Some v else lookup k' fs.
Proof.
  induction fs as [|[k0 v0] fs IH]; cbn.
  - reflexivity.
  - destruct (k =? k0)%string eqn:E; cbn.
    + apply String.eqb_eq in E. subst k0. now destruct (k' =? k)%string.
    + rewrite IH. destruct (k' =? k0)%string eqn:E'; [|reflexivity].
      apply String.eqb_eq in E'. subst k0.
      rewrite String.eqb_sym in E. now rewrite E.
Qed.

Lemma field_obj_set k v fs k' :
  field (JObj (obj_set k v fs)) k'
  = if (k' =? k)%string then v else field (JObj fs) k'.
Proof. cbn. rewrite lookup_obj_set. now destruct (k' =? k)%string. Qed.

(** The members that a successful refresh stores. *)
Lemma refreshed_fields base a r x e :
  let o := JObj (obj_extend base
                   [("access_token", a); ("refresh_token", r);
                    ("expires_in", x); ("expiry_date", e)]) in
  field o "access_token" = a /\ field o "refresh_token" = r
  /\ field o "expires_in" = x /\ field o "expiry_date" = e.
Proof.
  cbv zeta. unfold obj_extend. cbn [fold_left fst snd].
  repeat split; repeat (rewrite field_obj_set; cbn [String.eqb Ascii.eqb Bool.eqb]);
    reflexivity.
Qed.

Lemma refresh_never_throws cfg w :
  exists b, fst (refreshToken cfg w) = Ok b.
Proof. run_m. case_m; eauto. Qed.

Lemma refresh_failure_keeps_store cfg w :
  fst (refreshToken cfg w) = Ok false ->
  hubspotTokens (snd (refreshToken cfg w)) = hubspotTokens w
  /\ token_file (snd (refreshToken cfg w)) = token_file w.
Proof. run_m. case_m; intros H; try discriminate H; split; reflexivity. Qed.

(** What a successful refresh did. *)
Lemma refresh_success cfg w :
  fst (refreshToken cfg w) = Ok true ->
  exists dt st data rest,
    upstream w = (dt, Reply st data) :: rest
    /\ (200 <=? st) && (st <? 300) = true
    /\ truthy (field (hubspotTokens w) "refresh_token") = true
    /\ truthy (field data "access_token") = true
    /\ hubspotTokens (snd (refreshToken cfg w))
       = JObj (obj_extend (spread (hubspotTokens w))
                 [("access_token", field data "access_token");
                  ("refresh_token", field data "refresh_token");
                  ("expires_in", field data "expires_in");
                  ("expiry_date",
                   JNum (num_add (Num (now w + dt))
                           (num_mul (ToNumber (field data "expires_in"))
                                    (Num 1000))))])
    /\ upstream (snd (refreshToken cfg w)) = rest
    /\ now (snd (refreshToken cfg w)) = now w + dt
    /\ exists post, sent (snd (refreshToken cfg w)) = (sent w ++ [post])%list
                    /\ method post = "POST".
Proof.
  run_m. case_m; intros H; try discriminate H;
    repeat match goal with
      | H : (_, _) = (_, _) |- _ => inversion H; subst; clear H
      | H : negb _ || negb _ = false |- _ =>
          apply orb_false_iff in H as [? ?]
      | H : negb _ = false |- _ => apply negb_false_iff in H
      | H : _ && _ = true |- _ => apply andb_true_iff in H as [? ?]
      end;
    do 4 eexists; repeat split; eauto using andb_true_intro.
Qed.

(** ** TokenRefresher *)

(** C6. In every state in which no token is stored, or the stored token has
    no refresh token, [refreshToken] returns [false] at once: it logs one
    line and leaves the token, the file, the requests sent and the replies
    of the upstream untouched, so no network call is made. *)
Theorem refresh_without_refresh_token cfg w :
  truthy (hubspotTokens w) = false
  \/ truthy (field (hubspotTokens w) "refresh_token") = false ->
  refreshToken cfg w
  = (Ok false,
     mkWorld (hubspotTokens w) (token_file w) (write_error w)
       (console w ++ [(Info, [JStr "No refresh token available"])])
       (sent w) (upstream w) (now w) (S (refresh_calls w))).
Proof.
  intros H. run_m.
  assert (negb (truthy (hubspotTokens w))
          || negb (truthy (field (hubspotTokens w) "refresh_token")) = true)
    as -> by (destruct H as [-> | ->]; cbn; auto using orb_true_r).
  reflexivity.
Qed.

Lemma refresh_without_refresh_token_witness :
  truthy (hubspotTokens (quiet JNull 0 [(0, scenario_reply)])) = false
  /\ sent (snd (refreshToken dev (quiet JNull 0 [(0, scenario_reply)]))) = []
  /\ upstream (snd (refreshToken dev (quiet JNull 0 [(0, scenario_reply)])))
     = [(0, scenario_reply)].
Proof.
  split; [reflexivity|].
  rewrite (refresh_without_refresh_token dev (quiet JNull 0 [(0, scenario_reply)]))
    by (left; reflexivity).
  split; reflexivity.
Defined.

(** C1, as the specification states it, fails: in the specification's own
    scenario (a refresh answered with an access token and a lifetime but no
    refresh token) the refresh succeeds and the stored refresh token is not
    the previous one any more. *)
Lemma refresh_drops_refresh_token :
  let w := quiet (token_pair "old" "r1" 1000) 5000 [(0, scenario_reply)] in
  fst (refreshToken dev w) = Ok true
  /\ field (hubspotTokens w) "refresh_token" = JStr "r1"
  /\ field (hubspotTokens (snd (refreshToken dev w))) "refresh_token"
     <> field (hubspotTokens w) "refresh_token".
Proof. vm_compute. repeat split; discriminate. Qed.

(** C1, amended.  For every stored token with a refresh token and every
    refresh answered with a 2xx status and a body that has [access_token]
    and an integer [expires_in] but no [refresh_token], the refresh
    succeeds, the stored [refresh_token] becomes undefined (the previous
    value is not retained), the stored [access_token] is the new one and
    [expiry_date] is the time of the answer plus [expires_in] seconds, the
    sum being in the range where JavaScript computes it exactly. *)
Theorem refresh_takes_upstream_fields cfg w dt st data rest n :
  truthy (field (hubspotTokens w) "refresh_token") = true ->
  upstream w = (dt, Reply st data) :: rest ->
  200 <= st < 300 ->
  truthy (field data "access_token") = true ->
  field data "refresh_token" = JUndefined ->
  field data "expires_in" = JNum (Num n) ->
  safe_lifetime (now w + dt) n ->
  let stored := hubspotTokens (snd (refreshToken cfg w)) in
  fst (refreshToken cfg w) = Ok true
  /\ field stored "refresh_token" = JUndefined
  /\ field stored "access_token" = field data "access_token"
  /\ field stored "expiry_date" = JNum (Num (now w + dt + n * 1000)).
Proof.
  intros Hrt Hup Hst Hat Hnone Hexp _ stored.
  assert (fst (refreshToken cfg w) = Ok true) as Hok.
  { assert (truthy (hubspotTokens w) = true) as Htok
      by (destruct (field_truthy_obj _ _ Hrt) as [fs ->]; reflexivity).
    assert (truthy data = true) as Hdata
      by (destruct (field_truthy_obj _ _ Hat) as [ds ->]; reflexivity).
    run_m. rewrite Htok, Hrt, Hup. cbn.
    replace ((200 <=? st) && (st <? 300)) with true
      by (symmetry; apply andb_true_iff; lia).
    cbn. rewrite Hdata, Hat. cbn. case_m; reflexivity. }
  split; [exact Hok|].
  destruct (refresh_success cfg w Hok)
    as (dt' & st' & data' & rest' & Hup' & _ & _ & _ & Hnew & _).
  rewrite Hup in Hup'. injection Hup' as <- <- <- <-.
  subst stored. rewrite Hnew.
  match goal with
  | |- context [JObj (obj_extend ?b [(_, ?a); (_, ?r); (_, ?x); (_, ?e)])] =>
      destruct (refreshed_fields b a r x e) as (Ha & Hr & _ & He)
  end.
  cbv zeta in Ha, Hr, He. rewrite Ha, Hr, He, Hnone, Hexp.
  repeat split; reflexivity.
Qed.

Lemma refresh_takes_upstream_fields_witness :
  let w := quiet (token_pair "old" "r1" 1000) 5000 [(7, scenario_reply)] in
  field (hubspotTokens (snd (refreshToken dev w))) "expiry_date"
  = JNum (Num (5000 + 7 + 3600 * 1000)).
Proof.
  cbv zeta.
  apply (refresh_takes_upstream_fields dev
           (quiet (token_pair "old" "r1" 1000) 5000 [(7, scenario_reply)])
           7 200
           (JObj [("access_token", JStr "new123");
                  ("expires_in", JNum (Num 3600))])
           [] 3600);
    try reflexivity.
  - lia.
  - unfold safe_lifetime, safe, MAX_SAFE_INTEGER. cbn. lia.
Defined.




(** When monotonicity does hold: a refresh that the proxied calls ask for
    (the old token is within the safety margin), answered after some
    non-negative time with a lifetime longer than the margin, moves the
    expiry strictly forward. *)
Lemma proactive_refresh_extends_expiry cfg w e dt st data rest n :
  field (hubspotTokens w) "expiry_date" = JNum (Num e) ->
  needs_refresh (hubspotTokens w) (Num (now w)) = true ->
  upstream w = (dt, Reply st data) :: rest ->
  0 <= dt ->
  field data "expires_in" = JNum (Num n) ->
  margin < n * 1000 ->
  fst (refreshToken cfg w) = Ok true ->
  exists e',
    field (hubspotTokens (snd (refreshToken cfg w))) "expiry_date"
    = JNum (Num e')
    /\ e < e'.
Proof.
  intros He Hnr Hup Hdt Hn Hlong Hok.
  destruct (refresh_success cfg w Hok)
    as (dt' & st' & data' & rest' & Hup' & _ & _ & _ & Hnew & _).
  rewrite Hup in Hup'. injection Hup' as <- <- <- <-.
  rewrite Hnew.
  match goal with
  | |- context [JObj (obj_extend ?b [(_, ?a); (_, ?r); (_, ?x); (_, ?d)])] =>
      destruct (refreshed_fields b a r x d) as (_ & _ & _ & Hd)
  end.
  cbv zeta in Hd. rewrite Hd, Hn.
  exists (now w + dt + n * 1000). split; [reflexivity|].
  unfold needs_refresh in Hnr. rewrite He in Hnr.
  apply andb_true_iff in Hnr as [_ Hge].
  unfold num_ge, num_sub, ToNumber in Hge. apply Z.geb_le in Hge. lia.
Qed.

(** The half of C3 that the code does: a refresh answered with a success
    status and a body without [access_token] reports failure and writes
    nothing, neither to the store nor to the file. *)
Lemma refresh_rejects_body_without_access_token cfg w dt st data rest :
  upstream w = (dt, Reply st data) :: rest ->
  truthy (field data "access_token") = false ->
  fst (refreshToken cfg w) = Ok false
  /\ hubspotTokens (snd (refreshToken cfg w)) = hubspotTokens w
  /\ token_file (snd (refreshToken cfg w)) = token_file w.
Proof.
  intros Hup Hat.
  assert (fst (refreshToken cfg w) = Ok false) as Hf.
  { destruct (refresh_never_throws cfg w) as [[|] Hb]; [|exact Hb].
    destruct (refresh_success cfg w Hb)
      as (dt' & st' & data' & rest' & Hup' & _ & _ & Hat' & _).
    rewrite Hup in Hup'. injection Hup' as <- <- <- <-. congruence. }
  split; [exact Hf|]. now apply refresh_failure_keeps_store.
Qed.

(** C3.  The callback does not do what the specification requires (and
    what [refreshToken] does): answered with status 200 and a body without
    [access_token], it redirects as after a successful exchange, having
    replaced the stored pair by one without access token and written that
    to the file. *)
Theorem callback_stores_pair_without_access_token :
  let w := quiet (token_pair "good" "r1" 9000000) 1000
             [(0, Reply 200 (JObj [("expires_in", JNum (Num 1800))]))] in
  let r := oauth_callback dev (JObj [("code", JStr "abc")]) w in
  fst r = Ok (mkResponse 302 (Redirect "/api/hubspot/contacts"))
  /\ hubspotTokens (snd r)
     = JObj [("access_token", JUndefined); ("refresh_token", JUndefined);
             ("expiry_date", JNum (Num 1801000))]
  /\ exists text, token_file (snd r) = Content text.
Proof. vm_compute. repeat split. eexists. reflexivity. Qed.

(** ** AuthorizationFlow *)

(** C7.  A callback without a code (absent or empty) is answered with
    status 400 at once: one line is logged and nothing else changes, so no
    request is sent.  A callback with a code whose exchange is answered with
    a 2xx status and a body redirects to the contacts and leaves in the
    store a pair whose [access_token] and [refresh_token] are those of the
    body; for an integer lifetime (in the range where JavaScript computes
    the sum exactly) the stored object is exactly the pair of the two
    tokens and of the time of the answer plus [expires_in] seconds. *)
Theorem callback_code_handling cfg query w :
  (truthy (field query "code") = false ->
   oauth_callback cfg query w
   = (Ok (mkResponse 400
            (Send "Authentication failed: No authorization code provided")),
      mkWorld (hubspotTokens w) (token_file w) (write_error w)
        (console w ++ [(Error, [JStr "No code provided in callback"])])
        (sent w) (upstream w) (now w) (refresh_calls w)))
  /\ (forall dt st data rest,
        truthy (field query "code") = true ->
        upstream w = (dt, Reply st data) :: rest ->
        200 <= st < 300 ->
        nullish data = false ->
        let stored := hubspotTokens (snd (oauth_callback cfg query w)) in
        fst (oauth_callback cfg query w)
        = Ok (mkResponse 302 (Redirect "/api/hubspot/contacts"))
        /\ truthy stored = true
        /\ field stored "access_token" = field data "access_token"
        /\ field stored "refresh_token" = field data "refresh_token"
        /\ (forall n,
              field data "expires_in" = JNum (Num n) ->
              safe_lifetime (now w + dt) n ->
              stored
              = JObj [("access_token", field data "access_token");
                      ("refresh_token", field data "refresh_token");
                      ("expiry_date", JNum (Num (now w + dt + n * 1000)))])).
Proof.
  split.
  - intros H. run_m. rewrite H. reflexivity.
  - intros dt st data rest Hc Hup Hst Hd. cbv zeta.
    assert (fst (oauth_callback cfg query w)
            = Ok (mkResponse 302 (Redirect "/api/hubspot/contacts"))
            /\ hubspotTokens (snd (oauth_callback cfg query w))
               = JObj [("access_token", field data "access_token");
                       ("refresh_token", field data "refresh_token");
                       ("expiry_date",
                        JNum (num_add (Num (now w + dt))
                                (num_mul (ToNumber (field data "expires_in"))
                                         (Num 1000))))]) as [Hr Hs].
    { run_m. rewrite Hc. cbn. rewrite Hup. cbn.
      replace ((200 <=? st) && (st <? 300)) with true
        by (symmetry; apply andb_true_iff; lia).
      cbn. rewrite Hd. cbn. case_m; split; reflexivity. }
    rewrite Hs. repeat split; try assumption.
    intros n Hn _. rewrite Hn. reflexivity.
Qed.

Lemma callback_code_handling_witness :
  fst (oauth_callback dev (JObj []) (quiet JNull 0 [(0, scenario_reply)]))
  = Ok (mkResponse 400
          (Send "Authentication failed: No authorization code provided"))
  /\ hubspotTokens
       (snd (oauth_callback dev (JObj [("code", JStr "abc")])
               (quiet JNull 10 [(5, Reply 200
                                      (JObj [("access_token", JStr "a1");
                                             ("refresh_token", JStr "r1");
                                             ("expires_in", JNum (Num 1800))]))])))
     = token_pair "a1" "r1" 1800015.
Proof.
  split.
  - rewrite (proj1 (callback_code_handling dev (JObj [])
                      (quiet JNull 0 [(0, scenario_reply)])) eq_refl).
    reflexivity.
  - assert (200 <= 200 < 300) as Hst by lia.
    destruct (proj2 (callback_code_handling dev (JObj [("code", JStr "abc")])
                       (quiet JNull 10
                          [(5, Reply 200
                                 (JObj [("access_token", JStr "a1");
                                        ("refresh_token", JStr "r1");
                                        ("expires_in", JNum (Num 1800))]))]))
                5 200
                (JObj [("access_token", JStr "a1"); ("refresh_token", JStr "r1");
                       ("expires_in", JNum (Num 1800))])
                [] eq_refl eq_refl Hst eq_refl)
      as (_ & _ & _ & _ & Hpair).
    apply (Hpair 1800 eq_refl).
    unfold safe_lifetime, safe, MAX_SAFE_INTEGER. cbn. lia.
Defined.

(** ** TokenStore *)

(** [saveTokens] never throws and touches nothing but the file and the
    console. *)
Lemma saveTokens_never_throws cfg tokens w :
  fst (saveTokens cfg tokens w) = Ok tt.
Proof. apply saveTokens_frame. Qed.

(** C8.  When the token file cannot be written, or persistence is switched
    off (production), [saveTokens] still returns normally, changes nothing
    but the console, to which it adds one line (an error line when the write
    failed), and [set] leaves the new pair in memory. *)
Theorem saveTokens_failure_is_logged cfg pair w :
  isProduction cfg = true \/ write_error w <> None ->
  (exists line,
     saveTokens cfg pair w
     = (Ok tt,
        mkWorld (hubspotTokens w) (token_file w) (write_error w)
          (console w ++ [line]) (sent w) (upstream w) (now w)
          (refresh_calls w))
     /\ (isProduction cfg = false -> fst line = Error))
  /\ fst (set_tokens cfg pair w) = Ok tt
  /\ hubspotTokens (snd (set_tokens cfg pair w)) = pair
  /\ token_file (snd (set_tokens cfg pair w)) = token_file w.
Proof.
  intros H. destruct (isProduction cfg) eqn:Hp.
  - unfold set_tokens. run_m. rewrite Hp. cbn.
    repeat split. eexists. split; [reflexivity | discriminate].
  - destruct H as [H | H]; [discriminate H|].
    destruct (write_error w) as [why|] eqn:He; [|now elim H].
    unfold set_tokens. run_m. rewrite Hp. cbn.
    destruct (JSON_stringify pair); cbn; rewrite ?He; cbn;
      repeat split; eexists; split; reflexivity.
Qed.

Lemma saveTokens_failure_is_logged_witness :
  write_error (read_only JNull 0) <> None
  /\ hubspotTokens (snd (set_tokens dev (token_pair "a" "r" 5) (read_only JNull 0)))
     = token_pair "a" "r" 5.
Proof.
  split; [discriminate|].
  apply (saveTokens_failure_is_logged dev (token_pair "a" "r" 5) (read_only JNull 0)).
  right. discriminate.
Defined.

(** The lexer of the model is the scanner of the JSON grammar as long as it
    goes on. *)
Lemma scan_lex text : forall st out ts,
  lex st out text = Some ts -> scan (SModel st) out text = Some ts.
Proof.
  induction text as [|c text IH]; intros st out ts H; cbn in *.
  - exact H.
  - destruct (step st c) as [[st' ts0]|]; [|discriminate H].
    now apply IH.
Qed.

(** What [JSON_parse] reads is JSON: a text that is not JSON is refused. *)
Lemma not_json_not_parsed text :
  is_json text = false -> JSON_parse text = None.
Proof.
  unfold is_json, JSON_parse. intros H.
  destruct (lex LIdle [] text) as [ts|] eqn:Hl; [|reflexivity].
  rewrite (scan_lex _ _ _ _ Hl) in H.
  destruct (parse_tokens PValue [] ts); [discriminate H | reflexivity].
Qed.

(** C9, as the specification states it, fails: when the file system refuses
    the write (persistence unavailable) while an older token file is there,
    [set] followed by a restart leaves the store neither empty nor equal to
    the pair that was set: the restart restores the older pair. *)
Lemma stale_file_survives_failed_write :
  let older := token_pair "older" "r0" 1000 in
  let newer := token_pair "newer" "r1" 2000 in
  let w0 := snd (set_tokens dev older (quiet JNull 0 [])) in
  let w := mkWorld (hubspotTokens w0) (token_file w0)
             (Some "EROFS: read-only file system") [] [] [] 0 0 in
  write_error w <> None
  /\ fst (set_tokens dev newer w) = Ok tt
  /\ hubspotTokens (restart dev (snd (set_tokens dev newer w))) = older
  /\ older <> JNull /\ older <> newer.
Proof. vm_compute. repeat split; discriminate. Qed.

(** C9, amended.  In development mode, on a file system that accepts the
    write, setting a flat token object (a token pair in particular) and
    restarting the process restores the same object.  In production mode,
    or when the token file is absent, unreadable or not JSON, a restart
    leaves the store empty ([null]).  When the write is refused or skipped,
    the token file keeps what it held, so that a restart after [set] gives
    what a restart before it would have given: an older pair if the file
    holds one.  Loading never throws. *)
Theorem set_then_restart cfg w :
  (forall pair,
     isProduction cfg = false -> write_error w = None ->
     flat_object pair = true ->
     hubspotTokens (restart cfg (snd (set_tokens cfg pair w))) = pair)
  /\ (isProduction cfg = true
      \/ token_file w = Absent
      \/ (exists why, token_file w = Unreadable why)
      \/ (exists text, token_file w = Content text /\ is_json text = false) ->
      hubspotTokens (restart cfg w) = JNull)
  /\ (forall pair,
        isProduction cfg = true \/ write_error w <> None ->
        token_file (snd (set_tokens cfg pair w)) = token_file w
        /\ hubspotTokens (restart cfg (snd (set_tokens cfg pair w)))
           = hubspotTokens (restart cfg w))
  /\ fst (load_tokens cfg w) = Ok tt.
Proof.
  split; [|split; [|split]].
  - intros pair Hp He Hflat.
    destruct (parse_stringify_flat pair Hflat) as (text & Hs & Hparse).
    unfold restart, set_tokens. run_m. rewrite Hp. cbn.
    rewrite Hs. cbn. rewrite He. cbn. rewrite Hparse. reflexivity.
  - intros H. unfold restart. run_m.
    destruct (isProduction cfg); cbn; [reflexivity|].
    destruct H as [H | [H | [[why H] | (text & H & Hbad)]]];
      try discriminate H; rewrite H; cbn; try reflexivity.
    rewrite (not_json_not_parsed text Hbad). reflexivity.
  - intros pair H.
    assert (token_file (snd (set_tokens cfg pair w)) = token_file w
            /\ write_error (snd (set_tokens cfg pair w)) = write_error w
            /\ upstream (snd (set_tokens cfg pair w)) = upstream w
            /\ now (snd (set_tokens cfg pair w)) = now w) as (Hf & He & Hu & Hn).
    { unfold set_tokens. run_m.
      destruct (isProduction cfg) eqn:Hp; cbn; [repeat split|].
      destruct H as [H | H]; [discriminate H|].
      destruct (JSON_stringify pair); cbn;
        (destruct (write_error w) eqn:E; [|now elim H]); cbn;
        rewrite ?E; repeat split. }
    split; [exact Hf|].
    unfold restart. rewrite Hf, He, Hu, Hn. reflexivity.
  - run_m. case_m; reflexivity.
Qed.

Lemma set_then_restart_witness :
  hubspotTokens
    (restart dev (snd (set_tokens dev (token_pair "a1" "r1" 1700000000000)
                         (quiet JNull 0 []))))
  = token_pair "a1" "r1" 1700000000000
  /\ hubspotTokens (restart prod (quiet (token_pair "a1" "r1" 5) 0 [])) = JNull
  /\ hubspotTokens
       (restart dev
          (mkWorld JNull (Content "{ access_token: 1.5") None [] [] [] 0 0))
     = JNull
  /\ token_file (snd (set_tokens dev (token_pair "a" "r" 5) (read_only JNull 0)))
     = Absent.
Proof.
  split; [|split; [|split]].
  - apply (proj1 (set_then_restart dev (quiet JNull 0 []))); reflexivity.
  - apply (proj1 (proj2 (set_then_restart prod
                           (quiet (token_pair "a1" "r1" 5) 0 [])))).
    left. reflexivity.
  - apply (proj1 (proj2 (set_then_restart dev
                           (mkWorld JNull (Content "{ access_token: 1.5")
                              None [] [] [] 0 0)))).
    right. right. right. exists "{ access_token: 1.5". split; reflexivity.
  - apply (proj1 (proj2 (proj2 (set_then_restart dev (read_only JNull 0))))
             (token_pair "a" "r" 5)).
    right. discriminate.
Defined.

(** ** Token status *)

(** C10.  The token-status query reports [isExpired = true] when no token is
    stored or the stored token has no expiry date.  With an expiry date it
    reports the comparison of the clock with that very instant
    ([now >= expiry_date]); there is no safety margin: in the five minutes
    before the expiry the query says "not expired" while the proxied calls
    already ask for a refresh. *)
Theorem check_token_expiry w :
  (truthy (hubspotTokens w) = false
   \/ truthy (field (hubspotTokens w) "expiry_date") = false ->
   reported_isExpired w = JBool true)
  /\ (forall e,
        field (hubspotTokens w) "expiry_date" = JNum (Num e) -> e <> 0 ->
        reported_isExpired w = JBool (now w >=? e))
  /\ (forall e,
        field (hubspotTokens w) "expiry_date" = JNum (Num e) -> e <> 0 ->
        e - margin <= now w < e ->
        reported_isExpired w = JBool false
        /\ needs_refresh (hubspotTokens w) (Num (now w)) = true).
Proof.
  assert (forall e,
            field (hubspotTokens w) "expiry_date" = JNum (Num e) -> e <> 0 ->
            reported_isExpired w = JBool (now w >=? e)) as Hexact.
  { intros e He Hnz. unfold reported_isExpired. run_m.
    assert (truthy (hubspotTokens w) = true) as ->
      by (destruct (hubspotTokens w); try discriminate He; reflexivity).
    rewrite He. cbn. destruct (e =? 0) eqn:E; [apply Z.eqb_eq in E; lia|].
    reflexivity. }
  split; [|split].
  - intros H. unfold reported_isExpired. run_m.
    destruct H as [-> | H]; [reflexivity|].
    rewrite H. now rewrite andb_false_r.
  - exact Hexact.
  - intros e He Hnz Hin. rewrite (Hexact e He Hnz). split.
    + f_equal. rewrite Z.geb_leb. apply Z.leb_gt. lia.
    + unfold needs_refresh. rewrite He. cbn.
      destruct (e =? 0) eqn:E; [apply Z.eqb_eq in E; lia|]. cbn.
      unfold num_ge, num_sub, ToNumber, margin in *. apply Z.geb_le. lia.
Qed.

Lemma check_token_expiry_witness :
  reported_isExpired (quiet (token_pair "a" "r" 1000000) 900000 [])
  = JBool false
  /\ needs_refresh (token_pair "a" "r" 1000000) (Num 900000) = true.
Proof.
  apply (proj2 (proj2 (check_token_expiry
                         (quiet (token_pair "a" "r" 1000000) 900000 [])))
           1000000).
  - reflexivity.
  - discriminate.
  - unfold margin. cbn. lia.
Defined.

(** ** ProxyClient *)

#[local] Arguments refreshToken : simpl never.

Ltac run_call :=
  unfold call, contacts, lists, contacts_fetch, lists_fetch, member, axios,
    console_log, console_error, console_out, Date_now, read_tokens,
    try_catch, throw, bind, ret;
  cbn.

Lemma needs_refresh_num tokens e t :
  field tokens "expiry_date" = JNum (Num e) ->
  needs_refresh tokens (Num t) = negb (e =? 0) && (t >=? e - margin).
Proof. intros H. unfold needs_refresh. now rewrite H. Qed.

Lemma precondition_passes tokens :
  truthy (field tokens "access_token") = true ->
  negb (truthy tokens) || negb (truthy (field tokens "access_token")) = false.
Proof.
  intros H. destruct (field_truthy_obj _ _ H) as [fs ->]. now rewrite H.
Qed.

(** A call that needs no refresh goes straight to the upstream, once. *)
Lemma call_without_refresh cfg ep w :
  truthy (field (hubspotTokens w) "access_token") = true ->
  needs_refresh (hubspotTokens w) (Num (now w)) = false ->
  refresh_calls (snd (call cfg ep w)) = refresh_calls w
  /\ hubspotTokens (snd (call cfg ep w)) = hubspotTokens w
  /\ upstream (snd (call cfg ep w)) = tl (upstream w)
  /\ (exists get,
        sent (snd (call cfg ep w)) = (sent w ++ [get])%list
        /\ method get = "GET"
        /\ headers get = bearer (field (hubspotTokens w) "access_token"))
  /\ (forall dt st data rest,
        upstream w = (dt, Reply st data) :: rest ->
        st < 200 \/ 300 <= st ->
        exists resp, fst (call cfg ep w) = Ok resp /\ code resp = 500).
Proof.
  intros Hat Hnr. pose proof (precondition_passes _ Hat) as Hpre.
  destruct ep; run_call; rewrite Hpre, Hnr; cbn;
    (destruct (upstream w) as [|[dt a] rest] eqn:Hup; cbn;
     [| destruct a as [st data|why]; cbn;
        [destruct ((200 <=? st) && (st <? 300)) eqn:Hst; cbn;
         [destruct (nullish data); cbn|]|]]);
    repeat split; eauto;
    intros dt' st' data' rest' E Hbad; inversion E; subst;
    solve [ eauto
          | apply andb_true_iff in Hst as [H1 H2];
            apply Z.leb_le in H1; apply Z.ltb_lt in H2; lia ].
Qed.

(** A call that needs a refresh runs [refreshToken] once, first, and goes
    to the upstream only if that succeeded. *)
Lemma call_with_refresh cfg ep w :
  truthy (field (hubspotTokens w) "access_token") = true ->
  needs_refresh (hubspotTokens w) (Num (now w)) = true ->
  let w1 :=
    snd (console_log [JStr "Token expired or about to expire, refreshing..."] w) in
  let rr := refreshToken cfg w1 in
  let r := call cfg ep w in
  refresh_calls (snd r) = S (refresh_calls w)
  /\ (fst rr = Ok false ->
      (exists resp, fst r = Ok resp /\ code resp = 401) /\ snd r = snd rr)
  /\ (fst rr = Ok true ->
      (exists get,
         sent (snd r) = (sent (snd rr) ++ [get])%list
         /\ method get = "GET"
         /\ headers get = bearer (field (hubspotTokens (snd rr)) "access_token"))
      /\ (forall dt st data rest,
            upstream (snd rr) = (dt, Reply st data) :: rest ->
            st < 200 \/ 300 <= st ->
            exists resp, fst r = Ok resp /\ code resp = 500)).
Proof.
  intros Hat Hnr w1 rr r. subst r rr.
  pose proof (precondition_passes _ Hat) as Hpre.
  pose proof (refresh_counts cfg w1) as Hcount.
  destruct (refresh_never_throws cfg w1) as [b Hb].
  assert (forall ok w2,
            refreshToken cfg w1 = (ok, w2) -> ok = Ok b /\ refresh_calls w2 = S (refresh_calls w))
    as Hinv.
  { intros ok w2 E. rewrite E in Hb, Hcount. cbn in Hb, Hcount.
    split; [exact Hb | exact Hcount]. }
  subst w1. unfold console_log, console_out in *. cbn [snd] in *.
  destruct ep; run_call; rewrite Hpre, Hnr; cbn;
    match goal with
    | |- context [refreshToken cfg ?w1] =>
        destruct (refreshToken cfg w1) as [ok w2] eqn:Hr;
        destruct (Hinv ok w2 eq_refl) as [-> Hc]
    end; cbn;
    (destruct b; cbn;
     [ destruct (upstream w2) as [|[dt a] rest] eqn:Hup; cbn;
       [| destruct a as [st data|why]; cbn;
          [destruct ((200 <=? st) && (st <? 300)) eqn:Hst; cbn;
           [destruct (nullish data); cbn|]|]]
     | ]);
    (split; [exact Hc|]);
    (split; intros Hres; try discriminate Hres);
    repeat split; eauto;
    intros dt' st' data' rest' E Hbad; inversion E; subst;
    solve [ eauto
          | apply andb_true_iff in Hst as [H1 H2];
            apply Z.leb_le in H1; apply Z.ltb_lt in H2; lia ].
Qed.

(** C4, as the specification states it, fails: a stored token whose expiry
    date is 0 (the epoch, long past at any clock reading after 1970) is
    "five minutes or less in the future", yet the call runs no refresh and
    sends the stored access token: the guard of lines 445 and 509 reads an
    expiry date of 0 as no expiry date. *)
Lemma zero_expiry_is_not_refreshed :
  let w := quiet (token_pair "stale" "r1" 0) 1700000000000
             [(0, Reply 200 (JObj [("results", JArr [])]));
              (0, scenario_reply)] in
  0 <= now w + margin
  /\ field (hubspotTokens w) "expiry_date" = JNum (Num 0)
  /\ refresh_calls (snd (call dev Contacts w)) = 0%nat
  /\ map headers (sent (snd (call dev Contacts w))) = [bearer (JStr "stale")]
  /\ refresh_calls (snd (call dev Lists w)) = 0%nat
  /\ map headers (sent (snd (call dev Lists w))) = [bearer (JStr "stale")].
Proof. vm_compute. repeat split; discriminate. Qed.

(** C4, amended.  For a stored token with an access token and a numeric
    expiry date: when the expiry is more than five minutes ahead, the call
    runs no refresh and sends its one request with the stored access token;
    when the expiry is five minutes ahead or less and is not 0, the call
    runs [refreshToken] exactly once, before any proxied request: if the
    refresh fails the call answers 401 and sends nothing more, and if it
    succeeds the proxied request follows, with the refreshed access
    token. *)
Theorem proactive_refresh cfg ep w e :
  truthy (field (hubspotTokens w) "access_token") = true ->
  field (hubspotTokens w) "expiry_date" = JNum (Num e) ->
  let r := call cfg ep w in
  (now w + margin < e ->
   refresh_calls (snd r) = refresh_calls w
   /\ exists get,
        sent (snd r) = (sent w ++ [get])%list
        /\ method get = "GET"
        /\ headers get = bearer (field (hubspotTokens w) "access_token"))
  /\ (e <= now w + margin -> e <> 0 ->
      let rr :=
        refreshToken cfg
          (snd (console_log
                  [JStr "Token expired or about to expire, refreshing..."] w)) in
      refresh_calls (snd r) = S (refresh_calls w)
      /\ (exists b, fst rr = Ok b)
      /\ (fst rr = Ok false ->
          (exists resp, fst r = Ok resp /\ code resp = 401)
          /\ sent (snd r) = sent (snd rr))
      /\ (fst rr = Ok true ->
          exists get,
            sent (snd r) = (sent (snd rr) ++ [get])%list
            /\ method get = "GET"
            /\ headers get
               = bearer (field (hubspotTokens (snd rr)) "access_token"))).
Proof.
  intros Hat He r. subst r. split.
  - intros Hfar.
    assert (needs_refresh (hubspotTokens w) (Num (now w)) = false) as Hnr.
    { rewrite (needs_refresh_num _ e _ He). apply andb_false_iff. right.
      rewrite Z.geb_leb. apply Z.leb_gt. lia. }
    destruct (call_without_refresh cfg ep w Hat Hnr) as (Hc & _ & _ & Hget & _).
    split; assumption.
  - intros Hnear Hnz rr.
    assert (needs_refresh (hubspotTokens w) (Num (now w)) = true) as Hnr.
    { rewrite (needs_refresh_num _ e _ He). apply andb_true_iff. split.
      - apply negb_true_iff, Z.eqb_neq, Hnz.
      - apply Z.geb_le. lia. }
    destruct (call_with_refresh cfg ep w Hat Hnr) as (Hc & Hfalse & Htrue).
    split; [exact Hc|]. split; [apply refresh_never_throws|]. split.
    + intros Hf. destruct (Hfalse Hf) as [H401 Hsame].
      split; [exact H401 | now rewrite Hsame].
    + intros Ht. exact (proj1 (Htrue Ht)).
Qed.

Lemma proactive_refresh_witness :
  refresh_calls
    (snd (call dev Contacts
            (quiet (token_pair "a" "r" 1600000) 1000000
               [(0, Reply 200 (JObj [("results", JArr [])]))]))) = 0%nat
  /\ refresh_calls
       (snd (call dev Lists
               (quiet (token_pair "a" "r" 1120000) 1000000
                  [(0, scenario_reply);
                   (0, Reply 200 (JObj [("lists", JArr [])]))]))) = 1%nat.
Proof.
  split.
  - apply (proj1 (proactive_refresh dev Contacts
                    (quiet (token_pair "a" "r" 1600000) 1000000
                       [(0, Reply 200 (JObj [("results", JArr [])]))])
                    1600000 eq_refl eq_refl)).
    unfold margin. cbn. lia.
  - apply (proj2 (proactive_refresh dev Lists
                    (quiet (token_pair "a" "r" 1120000) 1000000
                       [(0, scenario_reply);
                        (0, Reply 200 (JObj [("lists", JArr [])]))])
                    1120000 eq_refl eq_refl)).
    + unfold margin. cbn. lia.
    + discriminate.
Defined.

(** C2.  The data routes do not do what the specification requires (and
    what the debug route does, lines 386-411): a call that passes the token
    preconditions and is answered 401 by the upstream answers 500 after
    that one request.  No refresh runs and nothing is retried, although the
    upstream would have answered a refresh and a second request. *)
Lemma unauthorized_call_is_not_retried :
  let w := quiet (token_pair "revoked" "r1" 9000000) 1000
             [(0, Reply 401 (JObj [("message", JStr "expired")]));
              (0, scenario_reply);
              (0, Reply 200 (JObj [("results", JArr [])]))] in
  code_of (fst (call dev Contacts w)) = Some 500
  /\ refresh_calls (snd (call dev Contacts w)) = 0%nat
  /\ List.length (sent (snd (call dev Contacts w))) = 1%nat
  /\ code_of (fst (call dev Lists w)) = Some 500
  /\ refresh_calls (snd (call dev Lists w)) = 0%nat
  /\ List.length (sent (snd (call dev Lists w))) = 1%nat.
Proof. vm_compute. repeat split; reflexivity. Qed.

(** ** The built-ins of the other routes on examples *)

Example iso_epoch : iso_string 0 = "1970-01-01T00:00:00.000Z".
Proof. reflexivity. Qed.

Example iso_leap_day : iso_string 951782400000 = "2000-02-29T00:00:00.000Z".
Proof. reflexivity. Qed.

Example iso_recent : iso_string 1700000000000 = "2023-11-14T22:13:20.000Z".
Proof. reflexivity. Qed.

Example iso_before_epoch : iso_string (-1) = "1969-12-31T23:59:59.999Z".
Proof. reflexivity. Qed.

Example iso_last_instant :
  iso_string 8640000000000000 = "+275760-09-13T00:00:00.000Z".
Proof. reflexivity. Qed.

Example encode_redirect_uri :
  encodeURIComponent "http://localhost:5000/oauth/callback"
  = "http%3A%2F%2Flocalhost%3A5000%2Foauth%2Fcallback".
Proof. reflexivity. Qed.

Example encode_latin1 :
  encodeURIComponent (String "233" "a b&c") = "%C3%A9a%20b%26c".
Proof. reflexivity. Qed.

Example exponent_numeral_is_json : is_json "[1.7e12, -0.5, 2E-3]" = true.
Proof. reflexivity. Qed.

Example exponent_numeral_is_outside_the_model : JSON_parse "1.7e12" = None.
Proof. reflexivity. Qed.

Example leading_zero_is_not_json : is_json "01" = false.
Proof. reflexivity. Qed.

Example lone_point_is_not_json : is_json "[1.]" = false.
Proof. reflexivity. Qed.

Example wide_escape_is_json :
  is_json (String dquote ("\u20AC" ++ String dquote EmptyString)) = true.
Proof. reflexivity. Qed.

(** * Further properties of the code *)

(** ** The proxied calls, beyond the expiry check *)

Lemma call_blocked cfg ep w :
  truthy (hubspotTokens w) = false
  \/ truthy (field (hubspotTokens w) "access_token") = false ->
  call cfg ep w
  = (Ok (mkResponse 401
           (Json (JObj [("error", JStr "Authentication required");
                        ("authUrl", JStr "/auth/hubspot")]))),
     w).
Proof.
  intros H.
  assert (negb (truthy (hubspotTokens w))
          || negb (truthy (field (hubspotTokens w) "access_token")) = true)
    as Hpre by (destruct H as [-> | ->]; cbn; auto using orb_true_r).
  destruct ep; run_call; rewrite Hpre; reflexivity.
Qed.

(** Without a stored token, or with a stored object that has no access
    token, a proxied call answers 401 "Authentication required" and does
    nothing else: no request, no refresh, no log line. *)
Theorem call_unauthenticated cfg ep w :
  truthy (hubspotTokens w) = false
  \/ truthy (field (hubspotTokens w) "access_token") = false ->
  call cfg ep w
  = (Ok (mkResponse 401
           (Json (JObj [("error", JStr "Authentication required");
                        ("authUrl", JStr "/auth/hubspot")]))),
     w).
Proof. exact (call_blocked cfg ep w). Qed.

Lemma call_unauthenticated_witness :
  truthy (field (JObj [("refresh_token", JStr "r1")]) "access_token") = false
  /\ code_of (fst (call dev Lists
                     (quiet (JObj [("refresh_token", JStr "r1")]) 0
                        [(0, scenario_reply)])))
     = Some 401.
Proof.
  split; [reflexivity|].
  rewrite (call_unauthenticated dev Lists
             (quiet (JObj [("refresh_token", JStr "r1")]) 0
                [(0, scenario_reply)]))
    by (right; reflexivity).
  reflexivity.
Defined.

(** [refreshToken] sends at most one request, to the token endpoint, with
    the stored refresh token; it sends exactly one as soon as a refresh
    token is stored.  Nothing is retried. *)
Theorem refresh_sends_at_most_one_request cfg w :
  let w' := snd (refreshToken cfg w) in
  (truthy (field (hubspotTokens w) "refresh_token") = false -> sent w' = sent w)
  /\ (truthy (field (hubspotTokens w) "refresh_token") = true ->
      exists post,
        sent w' = (sent w ++ [post])%list
        /\ method post = "POST" /\ url post = token_endpoint
        /\ field (body post) "refresh_token"
           = field (hubspotTokens w) "refresh_token"
        /\ field (body post) "grant_type" = JStr "refresh_token").
Proof.
  cbv zeta. split; intros Hrt.
  - run_m. rewrite Hrt, orb_true_r. reflexivity.
  - assert (truthy (hubspotTokens w) = true) as Htok
      by (destruct (field_truthy_obj _ _ Hrt) as [fs ->]; reflexivity).
    run_m. rewrite Htok, Hrt. cbn.
    case_m; eexists; repeat split; reflexivity.
Qed.

Lemma refresh_sends_at_most_one_request_witness :
  List.length
    (sent (snd (refreshToken dev
                  (quiet (token_pair "a" "r1" 5) 0
                     [(0, Reply 500 JNull); (0, scenario_reply)]))))
  = 1%nat.
Proof.
  destruct (proj2 (refresh_sends_at_most_one_request dev
                     (quiet (token_pair "a" "r1" 5) 0
                        [(0, Reply 500 JNull); (0, scenario_reply)]))
              eq_refl)
    as (post & Hsent & _).
  rewrite Hsent. reflexivity.
Defined.

Lemma refresh_sent_bound cfg w :
  (List.length (sent (snd (refreshToken cfg w))) <= S (List.length (sent w)))%nat.
Proof.
  run_m. case_m; rewrite ?length_app; cbn; lia.
Qed.

(** Whatever the store and the upstream do, a proxied call answers (it never
    throws) with status 200, 401 or 500, after at most one refresh and at
    most two requests. *)
Theorem call_always_answers cfg ep w :
  exists resp,
    fst (call cfg ep w) = Ok resp
    /\ (code resp = 200 \/ code resp = 401 \/ code resp = 500)
    /\ (refresh_calls (snd (call cfg ep w)) <= S (refresh_calls w))%nat
    /\ (List.length (sent (snd (call cfg ep w)))
         <= 2 + List.length (sent w))%nat.
Proof.
  destruct (negb (truthy (hubspotTokens w))
            || negb (truthy (field (hubspotTokens w) "access_token")))
    eqn:Hpre.
  - destruct ep; run_call; rewrite Hpre; cbn;
      eexists; repeat split; eauto; lia.
  - destruct (needs_refresh (hubspotTokens w) (Num (now w))) eqn:Hnr.
    + destruct ep; run_call; rewrite Hpre, Hnr; cbn;
        match goal with
        | |- context [refreshToken cfg ?w1] =>
            pose proof (refresh_counts cfg w1) as Hc;
            pose proof (refresh_sent_bound cfg w1) as Hs;
            destruct (refresh_never_throws cfg w1) as [b Hb];
            destruct (refreshToken cfg w1) as [ok w2] eqn:Hr
        end; cbn in Hc, Hs, Hb; subst ok; cbn;
        (destruct b; cbn;
         [ destruct (upstream w2) as [|[dt a] rest] eqn:Hup; cbn;
           [| destruct a as [st data|why]; cbn;
              [destruct ((200 <=? st) && (st <? 300)) eqn:Hst; cbn;
               [destruct (nullish data); cbn|]|]]
         | ]);
        eexists; repeat split; eauto; rewrite ?length_app; cbn; lia.
    + destruct ep; run_call; rewrite Hpre, Hnr; cbn;
        (destruct (upstream w) as [|[dt a] rest] eqn:Hup; cbn;
         [| destruct a as [st data|why]; cbn;
            [destruct ((200 <=? st) && (st <? 300)) eqn:Hst; cbn;
             [destruct (nullish data); cbn|]|]]);
        eexists; repeat split; eauto; rewrite ?length_app; cbn; lia.
Qed.

(** A stored token without expiry date (absent, null, 0 or NaN) is never
    refreshed by a proxied call: its access token is sent as it is. *)
Theorem no_expiry_never_refreshes cfg ep w :
  truthy (field (hubspotTokens w) "access_token") = true ->
  truthy (field (hubspotTokens w) "expiry_date") = false ->
  refresh_calls (snd (call cfg ep w)) = refresh_calls w
  /\ hubspotTokens (snd (call cfg ep w)) = hubspotTokens w
  /\ exists get,
       sent (snd (call cfg ep w)) = (sent w ++ [get])%list
       /\ method get = "GET"
       /\ headers get = bearer (field (hubspotTokens w) "access_token").
Proof.
  intros Hat He.
  assert (needs_refresh (hubspotTokens w) (Num (now w)) = false) as Hnr
    by (unfold needs_refresh; now rewrite He).
  destruct (call_without_refresh cfg ep w Hat Hnr) as (Hc & Ht & _ & Hget & _).
  auto.
Qed.

Lemma no_expiry_never_refreshes_witness :
  refresh_calls
    (snd (call dev Contacts
            (quiet (JObj [("access_token", JStr "a"); ("refresh_token", JStr "r")])
               1700000000000 [(0, Reply 401 JNull)])))
  = 0%nat.
Proof.
  apply (no_expiry_never_refreshes dev Contacts
           (quiet (JObj [("access_token", JStr "a"); ("refresh_token", JStr "r")])
              1700000000000 [(0, Reply 401 JNull)])
           eq_refl eq_refl).
Defined.

(** The member of the upstream body that holds the items, and the member of
    the answer that carries them. *)
Lemma call_success_body cfg ep w dt st data rest :
  truthy (field (hubspotTokens w) "access_token") = true ->
  needs_refresh (hubspotTokens w) (Num (now w)) = false ->
  upstream w = (dt, Reply st data) :: rest ->
  200 <= st < 300 ->
  nullish data = false ->
  let items := js_or (field data (items_key ep)) (JArr []) in
  code_of (fst (call cfg ep w)) = Some 200
  /\ field (json_of (fst (call cfg ep w))) "count" = js_length items
  /\ field (json_of (fst (call cfg ep w))) (answer_key ep) = items.
Proof.
  intros Hat Hnr Hup Hst Hd. pose proof (precondition_passes _ Hat) as Hpre.
  destruct ep; run_call; rewrite Hpre, Hnr; cbn; rewrite Hup; cbn;
    replace ((200 <=? st) && (st <? 300)) with true
      by (symmetry; apply andb_true_iff; lia);
    cbn; rewrite Hd; cbn; repeat split; reflexivity.
Qed.

Lemma call_success_body_after_refresh cfg ep w dt st data rest :
  truthy (field (hubspotTokens w) "access_token") = true ->
  needs_refresh (hubspotTokens w) (Num (now w)) = true ->
  let rr :=
    refreshToken cfg
      (snd (console_log
              [JStr "Token expired or about to expire, refreshing..."] w)) in
  fst rr = Ok true ->
  upstream (snd rr) = (dt, Reply st data) :: rest ->
  200 <= st < 300 ->
  nullish data = false ->
  let items := js_or (field data (items_key ep)) (JArr []) in
  code_of (fst (call cfg ep w)) = Some 200
  /\ field (json_of (fst (call cfg ep w))) "count" = js_length items
  /\ field (json_of (fst (call cfg ep w))) (answer_key ep) = items.
Proof.
  intros Hat Hnr rr. subst rr. unfold console_log, console_out. cbn [snd].
  intros Hok Hup Hst Hd. pose proof (precondition_passes _ Hat) as Hpre.
  destruct ep; run_call; rewrite Hpre, Hnr; cbn;
    match goal with
    | |- context [refreshToken cfg ?w1] =>
        destruct (refreshToken cfg w1) as [ok w2] eqn:Hr
    end; cbn in Hok, Hup; subst ok; cbn; rewrite Hup; cbn;
    replace ((200 <=? st) && (st <? 300)) with true
      by (symmetry; apply andb_true_iff; lia);
    cbn; rewrite Hd; cbn; repeat split; reflexivity.
Qed.

Lemma fresh_token_needs_no_refresh w :
  fresh_token w -> needs_refresh (hubspotTokens w) (Num (now w)) = false.
Proof.
  intros [H | (e & He & _ & Hfar)].
  - unfold needs_refresh. now rewrite H.
  - rewrite (needs_refresh_num _ e _ He). apply andb_false_iff. right.
    rewrite Z.geb_leb. apply Z.leb_gt. lia.
Qed.

Lemma stale_token_needs_refresh w :
  stale_token w -> needs_refresh (hubspotTokens w) (Num (now w)) = true.
Proof.
  intros (e & He & Hnz & Hnear).
  rewrite (needs_refresh_num _ e _ He). apply andb_true_iff. split.
  - apply negb_true_iff, Z.eqb_neq, Hnz.
  - apply Z.geb_le. lia.
Qed.

(** An upstream that answers the request of a proxied call with a 2xx
    status and a body gets its items forwarded, whether the request was
    sent at once (the stored token was fresh) or after a successful
    proactive refresh (it was stale): an array of [n] items comes back
    unchanged with [count = n], and a body without items member (or with an
    empty one) comes back as an empty array with [count = 0]. *)
Theorem call_forwards_items cfg ep w w_req dt st data rest :
  truthy (field (hubspotTokens w) "access_token") = true ->
  (fresh_token w /\ w_req = w)
  \/ (stale_token w
      /\ fst (refreshToken cfg
                (snd (console_log
                        [JStr "Token expired or about to expire, refreshing..."]
                        w))) = Ok true
      /\ w_req
         = snd (refreshToken cfg
                  (snd (console_log
                          [JStr "Token expired or about to expire, refreshing..."]
                          w)))) ->
  upstream w_req = (dt, Reply st data) :: rest ->
  200 <= st < 300 ->
  nullish data = false ->
  code_of (fst (call cfg ep w)) = Some 200
  /\ (forall l,
        field data (items_key ep) = JArr l ->
        field (json_of (fst (call cfg ep w))) "count"
        = JNum (Num (Z.of_nat (List.length l)))
        /\ field (json_of (fst (call cfg ep w))) (answer_key ep) = JArr l)
  /\ (truthy (field data (items_key ep)) = false ->
      field (json_of (fst (call cfg ep w))) "count" = JNum (Num 0)
      /\ field (json_of (fst (call cfg ep w))) (answer_key ep) = JArr []).
Proof.
  intros Hat Hpath Hup Hst Hd.
  assert (code_of (fst (call cfg ep w)) = Some 200
          /\ field (json_of (fst (call cfg ep w))) "count"
             = js_length (js_or (field data (items_key ep)) (JArr []))
          /\ field (json_of (fst (call cfg ep w))) (answer_key ep)
             = js_or (field data (items_key ep)) (JArr []))
    as (Hcode & Hcount & Hitems).
  { destruct Hpath as [[Hfresh ->] | (Hstale & Hok & ->)].
    - exact (call_success_body cfg ep w dt st data rest Hat
               (fresh_token_needs_no_refresh w Hfresh) Hup Hst Hd).
    - exact (call_success_body_after_refresh cfg ep w dt st data rest Hat
               (stale_token_needs_refresh w Hstale) Hok Hup Hst Hd). }
  split; [exact Hcode|]. split.
  - intros l Hl. rewrite Hcount, Hitems, Hl. split; reflexivity.
  - intros Hf. rewrite Hcount, Hitems. unfold js_or. rewrite Hf.
    split; reflexivity.
Qed.

Lemma call_forwards_items_witness :
  field (json_of (fst (call dev Contacts
                         (quiet (token_pair "a" "r" 9000000) 1000
                            [(0, Reply 200
                                   (JObj [("results",
                                           JArr [JObj []; JObj []; JObj []])]))]))))
    "count"
  = JNum (Num 3)
  /\ field (json_of (fst (call dev Lists
                            (quiet (token_pair "a" "r" 1120000) 1000000
                               [(0, scenario_reply);
                                (0, Reply 200
                                      (JObj [("lists",
                                              JArr [JObj []; JObj []])]))]))))
       "count"
     = JNum (Num 2).
Proof.
  assert (200 <= 200 < 300) as Hst by lia.
  assert (fresh_token (quiet (token_pair "a" "r" 9000000) 1000
                         [(0, Reply 200
                                (JObj [("results",
                                        JArr [JObj []; JObj []; JObj []])]))]))
    as Hfresh.
  { right. exists 9000000. split; [reflexivity|].
    unfold safe, MAX_SAFE_INTEGER, margin, quiet. cbn. lia. }
  assert (stale_token (quiet (token_pair "a" "r" 1120000) 1000000
                         [(0, scenario_reply);
                          (0, Reply 200
                                (JObj [("lists", JArr [JObj []; JObj []])]))]))
    as Hstale.
  { exists 1120000. split; [reflexivity|].
    unfold margin, quiet. cbn. lia. }
  split.
  - apply (proj1 (proj2 (call_forwards_items dev Contacts
                           (quiet (token_pair "a" "r" 9000000) 1000
                              [(0, Reply 200
                                     (JObj [("results",
                                             JArr [JObj []; JObj []; JObj []])]))])
                           _ 0 200
                           (JObj [("results", JArr [JObj []; JObj []; JObj []])])
                           [] eq_refl (or_introl (conj Hfresh eq_refl))
                           eq_refl Hst eq_refl))
             [JObj []; JObj []; JObj []] eq_refl).
  - apply (proj1 (proj2 (call_forwards_items dev Lists
                           (quiet (token_pair "a" "r" 1120000) 1000000
                              [(0, scenario_reply);
                               (0, Reply 200
                                     (JObj [("lists", JArr [JObj []; JObj []])]))])
                           _ 0 200
                           (JObj [("lists", JArr [JObj []; JObj []])])
                           [] eq_refl
                           (or_intror (conj Hstale (conj eq_refl eq_refl)))
                           eq_refl Hst eq_refl))
             [JObj []; JObj []] eq_refl).
Defined.

(** ** The callback and the refresh, beyond the claims *)

(** A callback whose exchange fails (no answer, a status outside 2xx, or a
    2xx answer with a null body) answers 500 after that one request, which
    carried the code; the stored token and the token file stay as they
    were. *)
Theorem callback_failure_keeps_store cfg query w :
  truthy (field query "code") = true ->
  (forall dt st data rest,
     upstream w = (dt, Reply st data) :: rest ->
     (st < 200 \/ 300 <= st) \/ nullish data = true) ->
  let r := oauth_callback cfg query w in
  code_of (fst r) = Some 500
  /\ hubspotTokens (snd r) = hubspotTokens w
  /\ token_file (snd r) = token_file w
  /\ exists post,
       sent (snd r) = (sent w ++ [post])%list
       /\ method post = "POST" /\ url post = token_endpoint
       /\ field (params post) "code" = field query "code"
       /\ field (params post) "grant_type" = JStr "authorization_code".
Proof.
  intros Hc Hbad. cbv zeta. run_m. rewrite Hc. cbn.
  destruct (upstream w) as [|[dt a] rest] eqn:Hup; cbn.
  - repeat split. eexists. repeat split.
  - destruct a as [st data|why]; cbn.
    + destruct ((200 <=? st) && (st <? 300)) eqn:Hst; cbn.
      * destruct (Hbad dt st data rest eq_refl) as [Hs | Hn].
        -- apply andb_true_iff in Hst as [H1 H2].
           apply Z.leb_le in H1. apply Z.ltb_lt in H2. lia.
        -- rewrite Hn. cbn. repeat split. eexists. repeat split.
      * repeat split. eexists. repeat split.
    + repeat split. eexists. repeat split.
Qed.

Lemma callback_failure_keeps_store_witness :
  hubspotTokens
    (snd (oauth_callback dev (JObj [("code", JStr "used-twice")])
            (quiet (token_pair "a" "r" 5) 0
               [(0, Reply 400 (JObj [("status", JStr "BAD_AUTH_CODE")]))])))
  = token_pair "a" "r" 5.
Proof.
  apply (callback_failure_keeps_store dev (JObj [("code", JStr "used-twice")])
           (quiet (token_pair "a" "r" 5) 0
              [(0, Reply 400 (JObj [("status", JStr "BAD_AUTH_CODE")]))])
           eq_refl).
  intros dt st data rest E. injection E as <- <- <- <-. left. right. lia.
Defined.

(** What a restart finds on the disk, in development mode. *)
Lemma restart_reads_file cfg w text v :
  isProduction cfg = false ->
  token_file w = Content text ->
  JSON_parse text = Some v ->
  hubspotTokens (restart cfg w) = v.
Proof.
  intros Hp Hf Hparse. unfold restart. run_m. rewrite Hp, Hf. cbn.
  rewrite Hparse. reflexivity.
Qed.

Lemma restart_without_file cfg w :
  isProduction cfg = true \/ token_file w = Absent ->
  hubspotTokens (restart cfg w) = JNull.
Proof.
  intros H. unfold restart. run_m.
  destruct (isProduction cfg); cbn; [reflexivity|].
  destruct H as [H | H]; [discriminate H|]. now rewrite H.
Qed.

(** After a successful exchange in development mode, on a file system that
    accepts the write, a restart finds the pair again as soon as the
    upstream sent strings for the two tokens and an integer lifetime (in the
    range where JavaScript computes the expiry exactly). *)
Theorem callback_survives_restart cfg query w dt st data rest a r n :
  isProduction cfg = false -> write_error w = None ->
  truthy (field query "code") = true ->
  upstream w = (dt, Reply st data) :: rest ->
  200 <= st < 300 ->
  field data "access_token" = JStr a ->
  field data "refresh_token" = JStr r ->
  field data "expires_in" = JNum (Num n) ->
  safe_lifetime (now w + dt) n ->
  hubspotTokens (restart cfg (snd (oauth_callback cfg query w)))
  = token_pair a r (now w + dt + n * 1000)
  /\ hubspotTokens (snd (oauth_callback cfg query w))
     = token_pair a r (now w + dt + n * 1000).
Proof.
  intros Hp He Hc Hup Hst Ha Hr Hn _.
  assert (nullish data = false) as Hd
    by (destruct data; try discriminate Ha; reflexivity).
  destruct (parse_stringify_flat (token_pair a r (now w + dt + n * 1000)) eq_refl)
    as (text & Hs & Hparse).
  assert (hubspotTokens (snd (oauth_callback cfg query w))
          = token_pair a r (now w + dt + n * 1000)
          /\ token_file (snd (oauth_callback cfg query w)) = Content text)
    as [Hmem Hfile].
  { run_m. rewrite Hc. cbn. rewrite Hup. cbn.
    replace ((200 <=? st) && (st <? 300)) with true
      by (symmetry; apply andb_true_iff; lia).
    cbn. rewrite Hd. cbn. rewrite Hp. cbn. rewrite Ha, Hr, Hn.
    change (JNum (num_add (Num (now w + dt)) (num_mul (ToNumber (JNum (Num n))) (Num 1000))))
      with (JNum (Num (now w + dt + n * 1000))).
    fold (token_pair a r (now w + dt + n * 1000)).
    rewrite Hs. cbn. rewrite He. cbn. split; reflexivity. }
  split; [|exact Hmem].
  exact (restart_reads_file cfg _ text _ Hp Hfile Hparse).
Qed.

Lemma callback_survives_restart_witness :
  hubspotTokens
    (restart dev
       (snd (oauth_callback dev (JObj [("code", JStr "abc")])
               (quiet JNull 10
                  [(5, Reply 200
                         (JObj [("access_token", JStr "a1");
                                ("refresh_token", JStr "r1");
                                ("expires_in", JNum (Num 1800))]))]))))
  = token_pair "a1" "r1" (10 + 5 + 1800 * 1000).
Proof.
  assert (200 <= 200 < 300) as Hst by lia.
  assert (safe_lifetime (10 + 5) 1800) as Hsafe
    by (unfold safe_lifetime, safe, MAX_SAFE_INTEGER; cbn; lia).
  apply (callback_survives_restart dev (JObj [("code", JStr "abc")])
           (quiet JNull 10
              [(5, Reply 200
                     (JObj [("access_token", JStr "a1");
                            ("refresh_token", JStr "r1");
                            ("expires_in", JNum (Num 1800))]))])
           5 200 _ [] "a1" "r1" 1800
           eq_refl eq_refl eq_refl eq_refl Hst eq_refl eq_refl eq_refl Hsafe).
Defined.






Lemma refresh_blocked cfg w :
  truthy (field (hubspotTokens w) "refresh_token") = false ->
  fst (refreshToken cfg w) = Ok false
  /\ sent (snd (refreshToken cfg w)) = sent w
  /\ upstream (snd (refreshToken cfg w)) = upstream w
  /\ hubspotTokens (snd (refreshToken cfg w)) = hubspotTokens w.
Proof.
  intros H. run_m. rewrite H, orb_true_r. repeat split.
Qed.

(** A refresh answered without a refresh token (or with an empty one) is
    the last one: the next [refreshToken] fails at once, without a request,
    whatever the upstream would answer. *)
Theorem refresh_after_dropped_refresh_token cfg w dt st data rest :
  upstream w = (dt, Reply st data) :: rest ->
  truthy (field data "refresh_token") = false ->
  fst (refreshToken cfg w) = Ok true ->
  let w1 := snd (refreshToken cfg w) in
  fst (refreshToken cfg w1) = Ok false
  /\ sent (snd (refreshToken cfg w1)) = sent w1
  /\ upstream (snd (refreshToken cfg w1)) = rest.
Proof.
  intros Hup Hrt Hok w1.
  destruct (refresh_success cfg w Hok)
    as (dt' & st' & data' & rest' & Hup' & _ & _ & _ & Hnew & Hrest & _).
  rewrite Hup in Hup'. injection Hup' as <- <- <- <-.
  assert (truthy (field (hubspotTokens w1) "refresh_token") = false) as Hgone.
  { subst w1. rewrite Hnew.
    match goal with
    | |- context [JObj (obj_extend ?b [(_, ?a); (_, ?r); (_, ?x); (_, ?e)])] =>
        destruct (refreshed_fields b a r x e) as (_ & Hr & _)
    end.
    cbv zeta in Hr. now rewrite Hr. }
  destruct (refresh_blocked cfg w1 Hgone) as (Hf & Hs & Hu & _).
  subst w1. rewrite Hu, Hrest. auto.
Qed.

Lemma refresh_after_dropped_refresh_token_witness :
  let w := quiet (token_pair "old" "r1" 1000) 5000
             [(0, scenario_reply); (0, scenario_reply)] in
  fst (refreshToken dev (snd (refreshToken dev w))) = Ok false
  /\ List.length (sent (snd (refreshToken dev (snd (refreshToken dev w)))))
     = 1%nat.
Proof.
  cbv zeta.
  destruct (refresh_after_dropped_refresh_token dev
              (quiet (token_pair "old" "r1" 1000) 5000
                 [(0, scenario_reply); (0, scenario_reply)])
              0 200 _ [(0, scenario_reply)] eq_refl eq_refl eq_refl)
    as (Hf & Hs & _).
  split; [exact Hf|]. rewrite Hs. reflexivity.
Defined.

(** A successful refresh keeps every member of the stored object other than
    the four it writes. *)
Theorem refresh_keeps_other_members cfg w k :
  fst (refreshToken cfg w) = Ok true ->
  k <> "access_token" -> k <> "refresh_token" ->
  k <> "expires_in" -> k <> "expiry_date" ->
  field (hubspotTokens (snd (refreshToken cfg w))) k
  = field (hubspotTokens w) k.
Proof.
  intros Hok H1 H2 H3 H4.
  destruct (refresh_success cfg w Hok)
    as (dt & st & data & rest & _ & _ & Hrt & _ & Hnew & _).
  rewrite Hnew. destruct (field_truthy_obj _ _ Hrt) as [fs ->].
  unfold obj_extend, spread. cbn [fold_left fst snd].
  repeat rewrite field_obj_set.
  apply String.eqb_neq in H1, H2, H3, H4. now rewrite H1, H2, H3, H4.
Qed.

Lemma refresh_keeps_other_members_witness :
  let w := quiet (JObj [("access_token", JStr "old");
                        ("refresh_token", JStr "r1");
                        ("hub_id", JNum (Num 42))]) 5000
             [(0, scenario_reply)] in
  field (hubspotTokens (snd (refreshToken dev w))) "hub_id" = JNum (Num 42).
Proof.
  cbv zeta.
  rewrite (refresh_keeps_other_members dev
             (quiet (JObj [("access_token", JStr "old");
                           ("refresh_token", JStr "r1");
                           ("hub_id", JNum (Num 42))]) 5000
                [(0, scenario_reply)])
             "hub_id" eq_refl);
    [reflexivity | discriminate ..].
Defined.

Lemma proactive_refresh_extends_expiry_witness :
  let w := quiet (token_pair "old" "r1" 1120000) 1000000
             [(7, scenario_reply)] in
  exists e',
    field (hubspotTokens (snd (refreshToken dev w))) "expiry_date"
    = JNum (Num e')
    /\ 1120000 < e'.
Proof.
  cbv zeta.
  apply (proactive_refresh_extends_expiry dev
           (quiet (token_pair "old" "r1" 1120000) 1000000
              [(7, scenario_reply)])
           1120000 7 200 _ [] 3600 eq_refl eq_refl eq_refl).
  - lia.
  - reflexivity.
  - unfold margin. lia.
  - reflexivity.
Defined.

Lemma refresh_rejects_body_without_access_token_witness :
  let w := quiet (token_pair "old" "r1" 1000) 5000
             [(0, Reply 200 (JObj [("expires_in", JNum (Num 1800))]))] in
  fst (refreshToken dev w) = Ok false
  /\ hubspotTokens (snd (refreshToken dev w)) = token_pair "old" "r1" 1000.
Proof.
  cbv zeta.
  destruct (refresh_rejects_body_without_access_token dev
              (quiet (token_pair "old" "r1" 1000) 5000
                 [(0, Reply 200 (JObj [("expires_in", JNum (Num 1800))]))])
              0 200 _ [] eq_refl eq_refl)
    as (Hf & Ht & _).
  split; [exact Hf | exact Ht].
Defined.

(** ** Logout and the start of the authorization flow *)

Ltac run_routes :=
  unfold logout, auth_hubspot, remove_token_file, fs_unlinkSync,
    fs_existsSync, console_log, console_error, console_out, write_tokens,
    read_tokens, try_catch, throw, bind, ret;
  cbn.

(** What [logout] does to the process. *)
Lemma logout_effect cfg w :
  exists lines,
    logout cfg w
    = (Ok (mkResponse 200
             (Json (JObj [("status", JStr "success");
                          ("message", JStr "Logged out successfully");
                          ("authUrl", JStr "/auth/hubspot")]))),
       mkWorld JNull
         (if negb (isProduction cfg)
          then match write_error w with
               | None => Absent
               | Some _ => token_file w
               end
          else token_file w)
         (write_error w) (console w ++ lines) (sent w) (upstream w) (now w)
         (refresh_calls w)).
Proof.
  run_routes. destruct (isProduction cfg); cbn.
  - exists []. now rewrite List.app_nil_r.
  - destruct (token_file w) eqn:Hf; cbn;
      destruct (write_error w) eqn:He; cbn;
      rewrite ?He, ?Hf; cbn;
      try (eexists; reflexivity);
      exists []; now rewrite List.app_nil_r.
Qed.

(** After a logout every proxied call answers 401, and neither the logout
    nor the call sends a request or runs a refresh. *)
Theorem logout_then_call cfg ep w :
  let w1 := snd (logout cfg w) in
  code_of (fst (logout cfg w)) = Some 200
  /\ hubspotTokens w1 = JNull
  /\ code_of (fst (call cfg ep w1)) = Some 401
  /\ sent (snd (call cfg ep w1)) = sent w
  /\ upstream (snd (call cfg ep w1)) = upstream w
  /\ refresh_calls (snd (call cfg ep w1)) = refresh_calls w.
Proof.
  cbv zeta. destruct (logout_effect cfg w) as [lines ->]. cbn [fst snd].
  rewrite call_blocked by (left; reflexivity).
  repeat split.
Qed.

(** In production, and in development on a file system that accepts the
    removal, a logout is durable: a restart comes up without token. *)
Theorem logout_survives_restart cfg w :
  isProduction cfg = true \/ write_error w = None ->
  hubspotTokens (restart cfg (snd (logout cfg w))) = JNull.
Proof.
  intros H. apply restart_without_file.
  destruct (logout_effect cfg w) as [lines ->]. cbn [snd token_file].
  destruct (isProduction cfg); cbn; [now left|].
  destruct H as [H | ->]; [discriminate H | now right].
Qed.

Lemma logout_survives_restart_witness :
  hubspotTokens
    (restart dev
       (snd (logout dev
               (snd (set_tokens dev (token_pair "a" "r" 5) (quiet JNull 0 []))))))
  = JNull.
Proof.
  apply (logout_survives_restart dev
           (snd (set_tokens dev (token_pair "a" "r" 5) (quiet JNull 0 [])))).
  right. reflexivity.
Defined.

(** When the token file cannot be removed, logout still answers success and
    empties the store; the failure is only logged and the file stays, so
    that a restart in development mode finds the old token again. *)
Theorem logout_failure_is_logged cfg w why :
  isProduction cfg = false ->
  write_error w = Some why ->
  token_file w <> Absent ->
  logout cfg w
  = (Ok (mkResponse 200
           (Json (JObj [("status", JStr "success");
                        ("message", JStr "Logged out successfully");
                        ("authUrl", JStr "/auth/hubspot")]))),
     mkWorld JNull (token_file w) (write_error w)
       (console w ++ [(Error, [JStr "Error deleting tokens file:"; JStr why])])
       (sent w) (upstream w) (now w) (refresh_calls w))
  /\ (forall text v,
        token_file w = Content text -> JSON_parse text = Some v ->
        hubspotTokens (restart cfg (snd (logout cfg w))) = v).
Proof.
  intros Hp He Hf.
  assert (logout cfg w
          = (Ok (mkResponse 200
                   (Json (JObj [("status", JStr "success");
                                ("message", JStr "Logged out successfully");
                                ("authUrl", JStr "/auth/hubspot")]))),
             mkWorld JNull (token_file w) (write_error w)
               (console w ++ [(Error, [JStr "Error deleting tokens file:"; JStr why])])
               (sent w) (upstream w) (now w) (refresh_calls w))) as Hl.
  { run_routes. rewrite Hp. cbn.
    destruct (token_file w) eqn:E; [now elim Hf | ..]; cbn;
      rewrite He, ?E; reflexivity. }
  split; [exact Hl|].
  intros text v Hc Hparse. rewrite Hl. cbn [snd].
  now apply (restart_reads_file cfg _ text v Hp).
Qed.

Lemma logout_failure_is_logged_witness :
  let w := mkWorld (token_pair "a" "r" 5) (Content "{}")
             (Some "EROFS: read-only file system") [] [] [] 0 0 in
  hubspotTokens (snd (logout dev w)) = JNull
  /\ hubspotTokens (restart dev (snd (logout dev w))) = JObj [].
Proof.
  cbv zeta.
  destruct (logout_failure_is_logged dev
              (mkWorld (token_pair "a" "r" 5) (Content "{}")
                 (Some "EROFS: read-only file system") [] [] [] 0 0)
              "EROFS: read-only file system" eq_refl eq_refl)
    as [Hl Hr]; [discriminate|].
  split.
  - rewrite Hl. reflexivity.
  - apply (Hr "{}" (JObj [])); reflexivity.
Defined.

(** Logging out twice leaves the same store and the same file as logging
    out once, with the same answer. *)
Theorem logout_idempotent cfg w :
  let w1 := snd (logout cfg w) in
  fst (logout cfg w1) = fst (logout cfg w)
  /\ hubspotTokens (snd (logout cfg w1)) = hubspotTokens w1
  /\ token_file (snd (logout cfg w1)) = token_file w1.
Proof.
  cbv zeta. destruct (logout_effect cfg w) as [lines Hl].
  destruct (logout_effect cfg (snd (logout cfg w))) as [lines' Hl'].
  rewrite Hl'. rewrite Hl. cbn [fst snd hubspotTokens token_file write_error].
  repeat split.
  destruct (isProduction cfg); cbn; [reflexivity|].
  destruct (write_error w); reflexivity.
Qed.

(** The start of the authorization flow always redirects to the same
    authorization URL and sends nothing.  Unless it is forced
    ([force=true]) while a token is stored, it leaves the store and the
    token file alone; forced with a token stored, it clears both as a
    logout does. *)
Theorem auth_redirects cfg query w :
  let r := auth_hubspot cfg query w in
  fst r = Ok (mkResponse 302 (Redirect (authUrl cfg)))
  /\ sent (snd r) = sent w
  /\ upstream (snd r) = upstream w
  /\ (field query "force" <> JStr "true" \/ truthy (hubspotTokens w) = false ->
      hubspotTokens (snd r) = hubspotTokens w
      /\ token_file (snd r) = token_file w)
  /\ (field query "force" = JStr "true" -> truthy (hubspotTokens w) = true ->
      hubspotTokens (snd r) = JNull
      /\ token_file (snd r) = token_file (snd (logout cfg w))).
Proof.
  cbv zeta.
  destruct (logout_effect cfg w) as [lines Hl]. rewrite Hl. cbn [snd token_file].
  clear Hl lines.
  run_routes.
  destruct (field query "force") as [| | | |s| |] eqn:Hq; cbn;
    try (repeat split; intros; repeat split; congruence).
  destruct (s =? "true")%string eqn:Hs; cbn;
    [apply String.eqb_eq in Hs; subst s | apply String.eqb_neq in Hs];
    [| repeat split; intros; repeat split; congruence].
  destruct (truthy (hubspotTokens w)) eqn:Ht; cbn;
    [| repeat split; intros; repeat split; congruence].
  destruct (isProduction cfg); cbn;
    [| destruct (token_file w) eqn:Hf; cbn;
       destruct (write_error w) eqn:He; cbn; rewrite ?He, ?Hf; cbn];
    repeat split; intros; repeat split;
    try match goal with
        | H : _ \/ _ |- _ => destruct H
        end;
    congruence.
Qed.

Lemma auth_redirects_witness :
  let w := snd (set_tokens dev (token_pair "a" "r" 5) (quiet JNull 0 [])) in
  hubspotTokens (snd (auth_hubspot dev (JObj []) w)) = token_pair "a" "r" 5
  /\ hubspotTokens (snd (auth_hubspot dev (JObj [("force", JStr "true")]) w))
     = JNull
  /\ token_file (snd (auth_hubspot dev (JObj [("force", JStr "true")]) w))
     = Absent.
Proof.
  cbv zeta.
  destruct (auth_redirects dev (JObj [])
              (snd (set_tokens dev (token_pair "a" "r" 5) (quiet JNull 0 []))))
    as (_ & _ & _ & Hkeep & _).
  destruct (auth_redirects dev (JObj [("force", JStr "true")])
              (snd (set_tokens dev (token_pair "a" "r" 5) (quiet JNull 0 []))))
    as (_ & _ & _ & _ & Hforce).
  split; [|split].
  - apply Hkeep. left. discriminate.
  - apply Hforce; reflexivity.
  - rewrite (proj2 (Hforce eq_refl eq_refl)). reflexivity.
Defined.

(** ** The debug route *)

Ltac run_debug :=
  unfold debug, debug_probe, debug_get, api_summary, error_summary,
    unauthorized, first10, toISOString, member, axios, Date_now, read_tokens,
    try_catch, throw, bind, ret;
  cbn.

(** The cases of the answer of the upstream to one request. *)
Ltac split_upstream w :=
  let dt := fresh "dt" in
  let a := fresh "a" in
  let rest := fresh "rest" in
  let st := fresh "st" in
  let data := fresh "data" in
  let why := fresh "why" in
  destruct (upstream w) as [|[dt a] rest] eqn:?; cbn;
  [| destruct a as [st data|why]; cbn;
     [destruct ((200 <=? st) && (st <? 300)) eqn:?; cbn;
      [destruct (nullish data) eqn:?; cbn | destruct (st =? 401) eqn:?; cbn]
     |]].

(** Without a stored token the debug route answers 200 and touches
    nothing: no request is sent. *)
Theorem debug_without_token cfg app dp w :
  truthy (hubspotTokens w) = false ->
  code_of (fst (debug cfg app dp w)) = Some 200
  /\ snd (debug cfg app dp w) = w
  /\ field (field (json_of (fst (debug cfg app dp w))) "tokenInfo") "hasToken"
     = JBool false.
Proof.
  intros H. run_debug. rewrite H. cbn. repeat split.
Qed.

Lemma debug_without_token_witness :
  snd (debug dev JUndefined no_date (quiet JNull 0 [(0, scenario_reply)]))
  = quiet JNull 0 [(0, scenario_reply)].
Proof.
  apply (debug_without_token dev JUndefined no_date
           (quiet JNull 0 [(0, scenario_reply)]) eq_refl).
Defined.

(** With a stored object whose access token is not a string, or whose
    expiry date is not a valid date (absent, NaN, out of range), the debug
    route answers 500 "Debug endpoint error" before any request. *)
Theorem debug_invalid_token_info cfg app dp w :
  truthy (hubspotTokens w) = true ->
  (forall s, field (hubspotTokens w) "access_token" <> JStr s)
  \/ new_Date dp (field (hubspotTokens w) "expiry_date") = NaN ->
  code_of (fst (debug cfg app dp w)) = Some 500
  /\ field (json_of (fst (debug cfg app dp w))) "error"
     = JStr "Debug endpoint error"
  /\ snd (debug cfg app dp w) = w.
Proof.
  intros Ht H. run_debug. rewrite Ht. cbn.
  destruct (field (hubspotTokens w) "access_token") as [| | | |s| |] eqn:Ha;
    cbn; try (repeat split; reflexivity).
  destruct H as [H | H]; [now elim (H s)|].
  rewrite H. cbn. repeat split.
Qed.

Lemma debug_invalid_token_info_witness :
  code_of
    (fst (debug dev JUndefined no_date
            (quiet (JObj [("access_token", JStr "a1");
                          ("refresh_token", JStr "r1");
                          ("expiry_date", JNum NaN)]) 0
               [(0, scenario_reply)])))
  = Some 500.
Proof.
  apply (debug_invalid_token_info dev JUndefined no_date
           (quiet (JObj [("access_token", JStr "a1");
                         ("refresh_token", JStr "r1");
                         ("expiry_date", JNum NaN)]) 0
              [(0, scenario_reply)])
           eq_refl).
  right. reflexivity.
Defined.

(** Whatever the store and the upstream do, the debug route answers (it
    never throws) with status 200 or 500, after at most one refresh and at
    most three requests. *)
Theorem debug_always_answers cfg app dp w :
  exists resp,
    fst (debug cfg app dp w) = Ok resp
    /\ (code resp = 200 \/ code resp = 500)
    /\ (refresh_calls (snd (debug cfg app dp w)) <= S (refresh_calls w))%nat
    /\ (List.length (sent (snd (debug cfg app dp w)))
         <= 3 + List.length (sent w))%nat.
Proof.
  run_debug.
  destruct (truthy (hubspotTokens w)) eqn:Ht; cbn;
    [| eexists; repeat split; eauto; lia].
  destruct (field (hubspotTokens w) "access_token") as [| | | |s| |] eqn:Ha;
    cbn; try (eexists; repeat split; eauto; lia).
  destruct (new_Date dp (field (hubspotTokens w) "expiry_date")) eqn:Hd;
    cbn; [| eexists; repeat split; eauto; lia].
  destruct (negb (s =? EmptyString)%string) eqn:Hs; cbn;
    [| eexists; repeat split; eauto; lia].
  split_upstream w;
    try (eexists; repeat split; eauto; rewrite ?length_app; cbn; lia).
  match goal with
  | |- context [refreshToken cfg ?w1] =>
      pose proof (refresh_counts cfg w1) as Hc;
      pose proof (refresh_sent_bound cfg w1) as Hb;
      destruct (refresh_never_throws cfg w1) as [b Hok];
      destruct (refreshToken cfg w1) as [ok w2] eqn:Hr
  end.
  cbn in Hc, Hb, Hok. rewrite length_app in Hb. cbn in Hb. subst ok. cbn.
  destruct b; cbn;
    [| eexists; repeat split; eauto; lia].
  split_upstream w2;
    eexists; repeat split; eauto; rewrite ?length_app; cbn; lia.
Qed.

(** The debug route refreshes only in reaction to a 401: when the answer to
    its request is anything else (or there is none), it runs no refresh,
    sends at most that one request and leaves the stored token alone. *)
Theorem debug_refresh_only_after_401 cfg app dp w :
  (forall dt data rest, upstream w <> (dt, Reply 401 data) :: rest) ->
  refresh_calls (snd (debug cfg app dp w)) = refresh_calls w
  /\ hubspotTokens (snd (debug cfg app dp w)) = hubspotTokens w
  /\ (List.length (sent (snd (debug cfg app dp w)))
      <= S (List.length (sent w)))%nat.
Proof.
  intros Hno. run_debug.
  destruct (truthy (hubspotTokens w)) eqn:Ht; cbn;
    [| repeat split; lia].
  destruct (field (hubspotTokens w) "access_token") as [| | | |s| |] eqn:Ha;
    cbn; try (repeat split; lia).
  destruct (new_Date dp (field (hubspotTokens w) "expiry_date")) eqn:Hd;
    cbn; [| repeat split; lia].
  destruct (negb (s =? EmptyString)%string) eqn:Hs; cbn;
    [| repeat split; lia].
  split_upstream w;
    try (repeat split; rewrite ?length_app; cbn; lia).
  exfalso.
  match goal with
  | H : (_ =? 401) = true |- _ => apply Z.eqb_eq in H; subst
  end.
  eapply Hno. reflexivity.
Qed.

Lemma debug_refresh_only_after_401_witness :
  refresh_calls
    (snd (debug dev JUndefined no_date
            (quiet (token_pair "a1" "r1" 9000000) 1000
               [(0, Reply 403 (JObj [("message", JStr "missing scope")]));
                (0, scenario_reply)])))
  = 0%nat.
Proof.
  apply (debug_refresh_only_after_401 dev JUndefined no_date
           (quiet (token_pair "a1" "r1" 9000000) 1000
              [(0, Reply 403 (JObj [("message", JStr "missing scope")]));
               (0, scenario_reply)])).
  intros dt data rest E. discriminate E.
Defined.

(** The reactive cycle of the debug route.  With a string access token and
    a valid expiry date stored, a 401 on the request is followed by exactly
    one [refreshToken]; if it succeeds the request is repeated once, with
    the refreshed access token, and if it fails nothing more is sent and
    the answer reports the failed refresh.  The answer has status 200 in
    both cases. *)
Theorem debug_reactive_retry cfg app dp w s t dt data rest :
  field (hubspotTokens w) "access_token" = JStr s ->
  s <> EmptyString ->
  new_Date dp (field (hubspotTokens w) "expiry_date") = Num t ->
  upstream w = (dt, Reply 401 data) :: rest ->
  let r := debug cfg app dp w in
  let rr := refreshToken cfg (snd (debug_get w)) in
  code_of (fst r) = Some 200
  /\ refresh_calls (snd r) = S (refresh_calls w)
  /\ (fst rr = Ok false ->
      snd r = snd rr
      /\ field (field (json_of (fst r)) "apiError") "refreshResult"
         = JStr "Token refresh failed")
  /\ (fst rr = Ok true ->
      exists get,
        sent (snd r) = (sent (snd rr) ++ [get])%list
        /\ method get = "GET" /\ url get = schemas_url
        /\ headers get
           = bearer (field (hubspotTokens (snd rr)) "access_token")).
Proof.
  intros Ha Hs Hd Hup. cbv zeta.
  assert (truthy (hubspotTokens w) = true) as Ht
    by (destruct (hubspotTokens w); try discriminate Ha; reflexivity).
  assert (negb (s =? EmptyString)%string = true) as Hne
    by (apply negb_true_iff, String.eqb_neq, Hs).
  run_debug. rewrite Ht. cbn. rewrite Ha. cbn. rewrite Hd. cbn.
  rewrite Hne. cbn. rewrite Hup. cbn. rewrite ?Ha.
  match goal with
  | |- context [refreshToken cfg ?w1] =>
      pose proof (refresh_counts cfg w1) as Hc;
      destruct (refresh_never_throws cfg w1) as [b Hok];
      destruct (refreshToken cfg w1) as [ok w2] eqn:Hr
  end.
  cbn in Hc, Hok. subst ok. cbn.
  destruct b; cbn.
  - split_upstream w2;
      (split; [reflexivity|]); (split; [exact Hc|]);
      (split; [intros E; discriminate E|]);
      intros _; eexists; repeat split.
  - repeat split; try exact Hc; intros E; try discriminate E; reflexivity.
Qed.

Lemma debug_reactive_retry_witness :
  let w := quiet (token_pair "revoked" "r1" 9000000) 1000
             [(0, Reply 401 JNull);
              (0, scenario_reply);
              (0, Reply 200 (JObj [("properties", JObj [])]))] in
  List.length (sent (snd (debug dev JUndefined no_date w))) = 3%nat
  /\ refresh_calls (snd (debug dev JUndefined no_date w)) = 1%nat.
Proof.
  cbv zeta.
  destruct (debug_reactive_retry dev JUndefined no_date
              (quiet (token_pair "revoked" "r1" 9000000) 1000
                 [(0, Reply 401 JNull);
                  (0, scenario_reply);
                  (0, Reply 200 (JObj [("properties", JObj [])]))])
              "revoked" 9000000 0 JNull
              [(0, scenario_reply);
               (0, Reply 200 (JObj [("properties", JObj [])]))]
              eq_refl)
    as (_ & Hc & _ & Hretry); try reflexivity; [discriminate|].
  destruct (Hretry eq_refl) as (get & Hsent & _).
  split; [rewrite Hsent; reflexivity | exact Hc].
Defined.

(** ** Loading *)

(** A restart reads the token file and never changes it; restarting twice
    gives the same store as restarting once. *)
Theorem restart_keeps_file cfg w :
  token_file (restart cfg w) = token_file w
  /\ hubspotTokens (restart cfg (restart cfg w)) = hubspotTokens (restart cfg w).
Proof.
  assert (forall w0, token_file (restart cfg w0) = token_file w0) as Hfile.
  { intros w0. unfold restart. run_m. case_m; reflexivity. }
  split; [apply Hfile|].
  unfold restart at 1 3. rewrite (Hfile w).
  unfold restart. run_m. case_m; reflexivity.
Qed.

(** The token-status query only looks at the stored object, the proxied
    calls at its access token: for a stored object without access token the
    query reports [hasToken = true] while every proxied call answers 401
    "Authentication required". *)
Theorem status_ignores_access_token cfg ep w fs :
  hubspotTokens w = JObj fs ->
  truthy (field (JObj fs) "access_token") = false ->
  field (json_of (fst (check_token w))) "hasToken" = JBool true
  /\ snd (check_token w) = w
  /\ code_of (fst (call cfg ep w)) = Some 401.
Proof.
  intros Hw Ha. split; [|split].
  - unfold check_token. run_m. rewrite Hw. reflexivity.
  - unfold check_token. run_m. reflexivity.
  - rewrite call_blocked by (right; now rewrite Hw). reflexivity.
Qed.

Lemma status_ignores_access_token_witness :
  let w := quiet (JObj [("refresh_token", JStr "r1");
                        ("expiry_date", JNum (Num 9000000))]) 1000 [] in
  field (json_of (fst (check_token w))) "action" = JStr "token valid"
  /\ code_of (fst (call dev Contacts w)) = Some 401.
Proof.
  cbv zeta. split; [reflexivity|].
  apply (status_ignores_access_token dev Contacts
           (quiet (JObj [("refresh_token", JStr "r1");
                         ("expiry_date", JNum (Num 9000000))]) 1000 [])
           [("refresh_token", JStr "r1"); ("expiry_date", JNum (Num 9000000))]
           eq_refl eq_refl).
Defined.
